(** * Order workflow of the pharmacy inventory server

    A shallow embedding of the order routes of [src/server.js]
    ([POST /api/orders], [PUT /api/orders/:id/status],
    [GET /api/orders/:id], [generateOrderNumber]) over the tables that
    [src/database.js] creates ([products], [orders], [order_items]).

    The SQLite handle is synchronous and the handlers never open a
    transaction, so every prepared statement commits on its own: a
    statement either throws and changes nothing, or succeeds and its
    effect stays.  The handlers are therefore written in a state monad
    whose exceptions keep the state reached so far.

    Quantities are integers held in JavaScript numbers: every statement
    binds them as doubles, so a difference or sum that leaves the range
    of the safe integers is rounded.  The order routes read the [users]
    table only through the foreign key of [orders.user_id], so of that
    table they see the set of ids.

    The second part covers the routes around them: the [settings]
    routes and their defaults, registration, login, password change,
    profile update and the deletion of users over the [users] table,
    and the default administrator of [src/database.js]. *)

From Stdlib Require Import ZArith QArith Qround Lia Ascii.
From stdpp Require Import base option list strings pretty gmap fin_maps.

Local Open Scope Z_scope.

(** ** Numbers of the [REAL] columns

    [price], [subtotal] and [total_amount] are [REAL] columns and
    JavaScript doubles.  The handlers only add two such numbers and
    multiply one by a cart quantity, so the model is parametric in the
    carrier and in these two operations, and no algebraic law is ever
    assumed of them.  The carrier holds the values such a column can
    store; [NaN], which [NOT NULL] turns away, is not among them, so
    the operations are taken never to produce it. *)

Class Real (R : Type) := {
  r_zero : R;
  r_add : R → R → R;
  r_mul : R → Z → R
}.

(** Amounts counted in the smallest currency unit. *)
#[global] Instance Z_Real : Real Z :=
  {| r_zero := 0; r_add := Z.add; r_mul := Z.mul |}.

(** ** Integers held in doubles

    A JavaScript number is a double.  Integers up to [2^53] in size are
    doubles; a larger one is a double only if it is a multiple of the
    power of two that leaves it 53 significant bits.  The result of an
    operation is the double nearest to the exact result, the one with
    the even significand when two are equally near. *)

(** [Number.MAX_SAFE_INTEGER] *)
Definition max_safe : Z := 2 ^ 53 - 1.

(** The fraction [n / d], for [0 ≤ n] and [0 < d], rounded to the
    nearest integer, to the even one on a tie. *)
Definition round_half_even (n d : Z) : Z :=
  let q := n / d in
  let r := n mod d in
  if (d <? 2 * r) || ((2 * r =? d) && Z.odd q) then q + 1 else q.

(** The double nearest to an integer (below the overflow threshold
    [2^1024]). *)
Definition to_double (z : Z) : Z :=
  if Z.abs z <? 2 ^ 53 then z
  else
    let ulp := 2 ^ (Z.log2 (Z.abs z) - 52) in
    Z.sgn z * (round_half_even (Z.abs z) ulp * ulp).

(** The double nearest to a positive rational: with [2^e ≤ x < 2^(e+1)]
    it is [m * 2^(e-52)] for the integer [m] nearest to
    [x * 2^(52-e)].  Numbers that are not positive are left alone, and
    the exponent is not bounded, which makes no difference to the
    integer part of a result. *)
Definition round_double (x : Q) : Q :=
  let n := Qnum x in
  let d := Zpos (Qden x) in
  if n <=? 0 then x
  else
    let l := Z.log2 n - Z.log2 d in
    let e := if n * 2 ^ Z.max 0 (- l) <? d * 2 ^ Z.max 0 l
             then l - 1 else l in
    let k := 52 - e in
    let m := round_half_even (n * 2 ^ Z.max 0 k) (d * 2 ^ Z.max 0 (- k)) in
    Qmake (m * 2 ^ Z.max 0 (- k)) (Z.to_pos (2 ^ Z.max 0 k)).

(** The largest double below one, [1 - 2^-53]. *)
Definition below_one : Q := Qmake max_safe (Z.to_pos (2 ^ 53)).

(** ** Rows, requests and responses *)

(** A row of [products], stored under its [id]; the columns no order
    route reads are left out. *)
Record Product (R : Type) := mkProduct {
  p_name : string;
  p_quantity : Z;
  p_price : R
}.
Arguments mkProduct {R}.
Arguments p_name {R}.
Arguments p_quantity {R}.
Arguments p_price {R}.

(** A row of [orders] (timestamps left out). *)
Record Order (R : Type) := mkOrder {
  o_id : Z;
  o_user_id : Z;
  o_order_number : string;
  o_customer_name : string;
  o_customer_email : option string;
  o_customer_phone : option string;
  o_customer_address : string;
  o_total_amount : R;
  o_status : string;
  o_payment_method : string;
  o_payment_status : string;
  o_notes : option string
}.
Arguments mkOrder {R}.
Arguments o_id {R}.
Arguments o_user_id {R}.
Arguments o_order_number {R}.
Arguments o_customer_name {R}.
Arguments o_customer_email {R}.
Arguments o_customer_phone {R}.
Arguments o_customer_address {R}.
Arguments o_total_amount {R}.
Arguments o_status {R}.
Arguments o_payment_method {R}.
Arguments o_payment_status {R}.
Arguments o_notes {R}.

(** A row of [order_items]. *)
Record OrderItem (R : Type) := mkOrderItem {
  oi_id : Z;
  oi_order_id : Z;
  oi_product_id : Z;
  oi_product_name : string;
  oi_quantity : Z;
  oi_price : R;
  oi_subtotal : R
}.
Arguments mkOrderItem {R}.
Arguments oi_id {R}.
Arguments oi_order_id {R}.
Arguments oi_product_id {R}.
Arguments oi_product_name {R}.
Arguments oi_quantity {R}.
Arguments oi_price {R}.
Arguments oi_subtotal {R}.

(** The three tables.  [products] and [orders] are keyed by their
    [INTEGER PRIMARY KEY]; [order_items] is kept in rowid order, the
    order in which [SELECT * FROM order_items WHERE order_id = ?]
    returns rows.  The [_seq] fields are the [AUTOINCREMENT] counters. *)
Record Store (R : Type) := mkStore {
  products : gmap Z (Product R);
  orders : gmap Z (Order R);
  orders_seq : Z;
  order_items : list (OrderItem R);
  order_items_seq : Z
}.
Arguments mkStore {R}.
Arguments products {R}.
Arguments orders {R}.
Arguments orders_seq {R}.
Arguments order_items {R}.
Arguments order_items_seq {R}.

(** One reading of [Date.now()] and [Math.random()]. *)
Record Sample := mkSample {
  now : Z;
  random : Q
}.

(** The database together with the readings [generateOrderNumber] will
    get: [entropy k] is what its [k]-th call observes, [draws] counts
    the calls made so far.  [members] holds the ids of the rows of
    [users], which [orders.user_id] references; no order route writes
    to that table. *)
Record World (R : Type) := mkWorld {
  db : Store R;
  members : gset Z;
  entropy : nat → Sample;
  draws : nat
}.
Arguments mkWorld {R}.
Arguments db {R}.
Arguments members {R}.
Arguments entropy {R}.
Arguments draws {R}.

(** [req.session.user] *)
Record User := mkUser {
  u_id : Z;
  u_role : string
}.

(** An entry of [req.body.items]; [ci_quantity = None] is a JSON [null]. *)
Record CartItem := mkCartItem {
  ci_product_id : Z;
  ci_quantity : option Z
}.

(** [req.body] of [POST /api/orders]; [None] is an absent field, and
    [items = None] also stands for a value that is not an array. *)
Record OrderRequest := mkOrderRequest {
  items : option (list CartItem);
  customer_name : option string;
  customer_email : option string;
  customer_phone : option string;
  customer_address : option string;
  payment_method : option string;
  notes : option string
}.

(** An element of [validateItems]. *)
Record ValidItem (R : Type) := mkValidItem {
  vi_product_id : Z;
  vi_product_name : string;
  vi_quantity : option Z;
  vi_price : R;
  vi_subtotal : R
}.
Arguments mkValidItem {R}.
Arguments vi_product_id {R}.
Arguments vi_product_name {R}.
Arguments vi_quantity {R}.
Arguments vi_price {R}.
Arguments vi_subtotal {R}.

(** JSON bodies the three routes send. *)
Inductive Body (R : Type) :=
  | BError (error : string)
  | BOrder (order : Order R) (its : list (OrderItem R))
  | BCreated (order : option (Order R)) (its : list (OrderItem R))
  | BSuccess (message : string).
Arguments BError {R}.
Arguments BOrder {R}.
Arguments BCreated {R}.
Arguments BSuccess {R}.

Record Response (R : Type) := json {
  status : Z;
  body : Body R
}.
Arguments json {R}.
Arguments status {R}.
Arguments body {R}.

(** ** Statements run against the store *)

Inductive Outcome (A : Type) :=
  | Returned (a : A)
  | Thrown (msg : string).
Arguments Returned {A}.
Arguments Thrown {A}.

Section Model.
Context {R : Type} `{!Real R}.

Definition Db (A : Type) : Type := World R → Outcome A * World R.

Definition db_ret {A} (a : A) : Db A := λ w, (Returned a, w).

Definition db_bind {A B} (m : Db A) (k : A → Db B) : Db B :=
  λ w, match m w with
       | (Returned a, w') => k a w'
       | (Thrown msg, w') => (Thrown msg, w')
       end.

Definition throw {A} (msg : string) : Db A := λ w, (Thrown msg, w).

Definition get_db : Db (Store R) := λ w, (Returned (db w), w).

Definition get_members : Db (gset Z) := λ w, (Returned (members w), w).

Definition put_db (s : Store R) : Db unit :=
  λ w, (Returned tt, mkWorld s (members w) (entropy w) (draws w)).

#[global] Instance Db_ret : MRet Db := @db_ret.
#[global] Instance Db_bind : MBind Db := λ A B k m, db_bind m k.

Definition for_each {A} (f : A → Db unit) : list A → Db unit :=
  fix go l :=
    match l with
    | [] => mret tt
    | x :: l' => f x ;; go l'
    end.

(** *** Helpers on rows *)

Definition set_quantity (q : Z) (p : Product R) : Product R :=
  mkProduct (p_name p) q (p_price p).

Definition set_status (st : string) (o : Order R) : Order R :=
  mkOrder (o_id o) (o_user_id o) (o_order_number o) (o_customer_name o)
    (o_customer_email o) (o_customer_phone o) (o_customer_address o)
    (o_total_amount o) st (o_payment_method o) (o_payment_status o)
    (o_notes o).

(** [quantity = quantity - ?] and [quantity = quantity + ?] on the row
    with the given id, if there is one.  The parameter is bound as a
    double, so the difference or sum is one too: the double nearest to
    the exact result, which the [INTEGER] column then stores as it is.
    Every stock in the table got there in this way, from a bound
    number, and so is a double itself. *)
Definition deduct (q pid : Z) (m : gmap Z (Product R)) : gmap Z (Product R) :=
  alter (λ p, set_quantity (to_double (p_quantity p - q)) p) pid m.

Definition restore (q pid : Z) (m : gmap Z (Product R)) : gmap Z (Product R) :=
  alter (λ p, set_quantity (to_double (p_quantity p + q)) p) pid m.

Definition with_products (m : gmap Z (Product R)) (s : Store R) : Store R :=
  mkStore m (orders s) (orders_seq s) (order_items s) (order_items_seq s).

(** [order_number TEXT UNIQUE NOT NULL] *)
Definition order_number_taken (s : Store R) (n : string) : bool :=
  existsb (λ kv, String.eqb (o_order_number kv.2) n) (map_to_list (orders s)).

(** *** [INSERT INTO orders (...) VALUES (?, ?, ?, ?, ?, ?, ?, ?, ?, ?)]

    The row gets the next [AUTOINCREMENT] id and the column defaults
    [status = 'pending'], [payment_status = 'pending'].  The statement
    throws on a taken [order_number], which is found while the row is
    written, and on a [user_id] without a row in [users], which is
    found when the statement ends (foreign keys are enforced by the
    handle); it returns [lastInsertRowid]. *)
Definition insertOrder (user_id : Z) (order_number name : string)
    (email phone : option string) (address : string) (total : R)
    (payment : string) (note : option string) : Db Z :=
  s ← get_db;
  ids ← get_members;
  if order_number_taken s order_number
  then throw "UNIQUE constraint failed: orders.order_number"
  else if negb (bool_decide (user_id ∈ ids))
  then throw "FOREIGN KEY constraint failed"
  else
    let id := orders_seq s + 1 in
    let row := mkOrder id user_id order_number name email phone address
                 total "pending" payment "pending" note in
    put_db (mkStore (products s) (<[id := row]> (orders s)) id
              (order_items s) (order_items_seq s));;
    mret id.

(** *** [INSERT INTO order_items (...) VALUES (?, ?, ?, ?, ?, ?)]

    [quantity INTEGER NOT NULL]: binding [null] throws. *)
Definition insertOrderItem (order_id product_id : Z) (product_name : string)
    (quantity : option Z) (price subtotal : R) : Db unit :=
  s ← get_db;
  match quantity with
  | None => throw "NOT NULL constraint failed: order_items.quantity"
  | Some q =>
      let id := order_items_seq s + 1 in
      let row := mkOrderItem id order_id product_id product_name q
                   price subtotal in
      put_db (mkStore (products s) (orders s) (orders_seq s)
                (order_items s ++ [row]) id)
  end.

(** *** [UPDATE products SET quantity = quantity - ? WHERE id = ?]

    No row matches an unknown id; [quantity - NULL] is [NULL], which the
    [NOT NULL] column refuses.  For a number the difference is the one
    of doubles ([deduct]). *)
Definition updateProduct (quantity : option Z) (pid : Z) : Db unit :=
  s ← get_db;
  match quantity with
  | Some q =>
      put_db (with_products (deduct q pid (products s)) s)
  | None =>
      match products s !! pid with
      | Some _ => throw "NOT NULL constraint failed: products.quantity"
      | None => mret tt
      end
  end.

(** *** [UPDATE products SET quantity = quantity + ? WHERE id = ?]

    The sum is the one of doubles ([restore]). *)
Definition restoreProduct (quantity : Z) (pid : Z) : Db unit :=
  s ← get_db;
  put_db (with_products (restore quantity pid (products s)) s).

(** *** [SELECT * FROM orders WHERE id = ?] *)
Definition getOrder (id : Z) : Db (option (Order R)) :=
  s ← get_db; mret (orders s !! id).

(** *** [SELECT * FROM order_items WHERE order_id = ?] *)
Definition items_of (s : Store R) (id : Z) : list (OrderItem R) :=
  filter (λ it, oi_order_id it = id) (order_items s).

Definition getOrderItems (id : Z) : Db (list (OrderItem R)) :=
  s ← get_db; mret (items_of s id).

(** *** [UPDATE orders SET status = ? WHERE id = ?], returning
    [result.changes] *)
Definition updateOrder (st : string) (id : Z) : Db Z :=
  s ← get_db;
  put_db (mkStore (products s) (alter (set_status st) id (orders s))
            (orders_seq s) (order_items s) (order_items_seq s));;
  mret (match orders s !! id with Some _ => 1 | None => 0 end).

(** ** [generateOrderNumber] *)

(** [Math.floor(Math.random() * 1000)]: the product is a double, and
    it is the double that is floored. *)
Definition order_suffix (x : Sample) : Z :=
  Qfloor (round_double (Qmult (random x) (inject_Z 1000))).

Definition order_number_of (x : Sample) : string :=
  "ORD-" +:+ pretty (now x) +:+ "-" +:+ pretty (order_suffix x).

Definition generateOrderNumber : Db string :=
  λ w, (Returned (order_number_of (entropy w (draws w))),
        mkWorld (db w) (members w) (entropy w) (S (draws w))).

(** ** Route plumbing *)

(** [requireAuth]: a request without [req.session.user] gets 401. *)
Definition requireAuth (session : option User)
    (handler : User → World R → Response R * World R)
    : World R → Response R * World R :=
  match session with
  | Some user => handler user
  | None => λ w, (json 401 (BError "Unauthorized"), w)
  end.

(** [try { ... } catch (error) { return res.status(500).json(...) }]:
    the writes made before the exception stay. *)
Definition try_catch (m : Db (Response R)) : World R → Response R * World R :=
  λ w, match m w with
       | (Returned r, w') => (r, w')
       | (Thrown msg, w') => (json 500 (BError msg), w')
       end.

(** JavaScript truthiness of an optional string field. *)
Definition falsy (x : option string) : bool :=
  match x with
  | None => true
  | Some v => String.eqb v ""
  end.

(** [x || d] *)
Definition or_else (x : option string) (d : string) : string :=
  if falsy x then d else default d x.

(** [x || null] *)
Definition or_null (x : option string) : option string :=
  if falsy x then None else x.

(** [ToNumber] of a cart quantity: [null] counts as [0] in [<] and [*]. *)
Definition to_number (q : option Z) : Z := default 0 q.

(** [${item.quantity}] *)
Definition show_quantity (q : option Z) : string :=
  match q with
  | Some z => pretty z
  | None => "null"
  end.

(** ** [POST /api/orders] *)

(** The loop "Validate stock availability and calculate total": it
    stops at the first entry whose product is unknown or whose stock is
    below the request, and otherwise yields [totalAmount] and
    [validateItems].  It only reads, so it runs on the table as it
    stands when the loop starts; [product.id] is the id the row was
    found under. *)
Fixpoint validate (prods : gmap Z (Product R)) (cart : list CartItem)
    (totalAmount : R) (validateItems : list (ValidItem R))
    : string + (R * list (ValidItem R)) :=
  match cart with
  | [] => inr (totalAmount, validateItems)
  | item :: rest =>
      match prods !! ci_product_id item with
      | None =>
          inl ("Product " +:+ pretty (ci_product_id item) +:+ " not found")
      | Some product =>
          if p_quantity product <? to_number (ci_quantity item)
          then inl ("Insufficient stock for " +:+ p_name product
                    +:+ ". Available: " +:+ pretty (p_quantity product)
                    +:+ ", Requested: " +:+ show_quantity (ci_quantity item))
          else
            let subtotal :=
              r_mul (p_price product) (to_number (ci_quantity item)) in
            validate prods rest (r_add totalAmount subtotal)
              (validateItems ++
                 [mkValidItem (ci_product_id item) (p_name product)
                    (ci_quantity item) (p_price product) subtotal])
      end
  end.

(** The body of the loop over [validateItems]. *)
Definition write_item (orderId : Z) (item : ValidItem R) : Db unit :=
  insertOrderItem orderId (vi_product_id item) (vi_product_name item)
    (vi_quantity item) (vi_price item) (vi_subtotal item);;
  updateProduct (vi_quantity item) (vi_product_id item).

(** The statements from "Create order" on. *)
Definition write_order (user : User) (req : OrderRequest) (totalAmount : R)
    (validateItems : list (ValidItem R)) : Db (Response R) :=
  orderNumber ← generateOrderNumber;
  orderId ← insertOrder (u_id user) orderNumber
              (default "" (customer_name req))
              (or_null (customer_email req))
              (or_null (customer_phone req))
              (default "" (customer_address req))
              totalAmount
              (or_else (payment_method req) "cash")
              (or_null (notes req));
  for_each (write_item orderId) validateItems;;
  order ← getOrder orderId;
  orderItems ← getOrderItems orderId;
  mret (json 200 (BCreated order orderItems)).

Definition place_order (session : option User) (req : OrderRequest)
    : World R → Response R * World R :=
  requireAuth session (λ user, try_catch (
    match items req with
    | None | Some [] => mret (json 400 (BError "Order items are required"))
    | Some cart =>
        if falsy (customer_name req) || falsy (customer_address req)
        then mret (json 400
                     (BError "Customer name and address are required"))
        else
          s ← get_db;
          match validate (products s) cart r_zero [] with
          | inl error => mret (json 400 (BError error))
          | inr (totalAmount, validateItems) =>
              write_order user req totalAmount validateItems
          end
    end)).

(** ** [PUT /api/orders/:id/status] *)

Definition validStatuses : list string :=
  ["pending"; "processing"; "shipped"; "delivered"; "cancelled"].

(** The body of the loop "restore inventory". *)
Definition restore_item (item : OrderItem R) : Db unit :=
  restoreProduct (oi_quantity item) (oi_product_id item).

Definition update_order_status (session : option User) (id : Z)
    (st : string) : World R → Response R * World R :=
  requireAuth session (λ _, try_catch (
    if negb (existsb (String.eqb st) validStatuses)
    then mret (json 400 (BError "Invalid order status"))
    else
      changes ← updateOrder st id;
      if changes =? 0
      then mret (json 404 (BError "Order not found"))
      else
        (if String.eqb st "cancelled"
         then
           its ← getOrderItems id;
           for_each restore_item its
         else mret tt);;
        mret (json 200 (BSuccess "Order status updated successfully")))).

(** ** [GET /api/orders/:id] *)

Definition get_order (session : option User) (id : Z)
    : World R → Response R * World R :=
  requireAuth session (λ user, try_catch (
    order ← getOrder id;
    match order with
    | None => mret (json 404 (BError "Order not found"))
    | Some order =>
        (* if (order.user_id !== req.session.user.id) { } *)
        (if negb (o_user_id order =? u_id user) then mret tt else mret tt);;
        its ← getOrderItems id;
        mret (json 200 (BOrder order its))
    end)).

(** ** Observations used in the statements *)

(** The stock of a product, if the product exists. *)
Definition stock (s : Store R) (pid : Z) : option Z :=
  p_quantity <$> products s !! pid.

(** Units of product [pid] on a list of order rows. *)
Definition ordered (pid : Z) (its : list (OrderItem R)) : Z :=
  foldr (λ it acc,
           (if bool_decide (oi_product_id it = pid)
            then oi_quantity it else 0) + acc) 0 its.

(** Units of product [pid] a cart asks for, over all its entries. *)
Definition requested (pid : Z) (cart : list CartItem) : Z :=
  foldr (λ ci acc,
           (if bool_decide (ci_product_id ci = pid)
            then to_number (ci_quantity ci) else 0) + acc) 0 cart.

(** Units of product [pid] on [validateItems]. *)
Definition deducted (pid : Z) (vis : list (ValidItem R)) : Z :=
  foldr (λ v acc,
           (if bool_decide (vi_product_id v = pid)
            then to_number (vi_quantity v) else 0) + acc) 0 vis.

(** The sizes of the amounts a cart, [validateItems] or a list of order
    rows hold of product [pid], whatever their signs. *)
Definition cart_size (cart : list CartItem) (pid : Z) : Z :=
  foldr (λ ci acc,
           (if bool_decide (ci_product_id ci = pid)
            then Z.abs (to_number (ci_quantity ci)) else 0) + acc) 0 cart.

Definition valid_size (vis : list (ValidItem R)) (pid : Z) : Z :=
  foldr (λ v acc,
           (if bool_decide (vi_product_id v = pid)
            then Z.abs (to_number (vi_quantity v)) else 0) + acc) 0 vis.

Definition rows_size (its : list (OrderItem R)) (pid : Z) : Z :=
  foldr (λ it acc,
           (if bool_decide (oi_product_id it = pid)
            then Z.abs (oi_quantity it) else 0) + acc) 0 its.

(** Every stock stays a safe integer when amounts of the given sizes
    are taken from it or added to it, in any order: no result of these
    writes, and none on the way, is rounded. *)
Definition room_for (s : Store R) (size : Z → Z) : Prop :=
  ∀ pid q, stock s pid = Some q → Z.abs q + size pid ≤ max_safe.

(** [sum(item.subtotal for item in items)], summed from [0] in row
    order. *)
Definition sum_subtotals (its : list (OrderItem R)) : R :=
  fold_left (λ acc it, r_add acc (oi_subtotal it)) its r_zero.

(** Restoring the stock of every row of a cancelled order, in row
    order. *)
Definition restore_all (its : list (OrderItem R)) (m : gmap Z (Product R))
    : gmap Z (Product R) :=
  fold_left (λ m it, restore (oi_quantity it) (oi_product_id it) m) its m.

(** The rows the write loop appends for [validateItems]. *)
Fixpoint item_rows (order_id seq : Z) (vis : list (ValidItem R))
    : list (OrderItem R) :=
  match vis with
  | [] => []
  | v :: rest =>
      mkOrderItem (seq + 1) order_id (vi_product_id v) (vi_product_name v)
        (to_number (vi_quantity v)) (vi_price v) (vi_subtotal v)
      :: item_rows order_id (seq + 1) rest
  end.

(** The stock the write loop leaves for [validateItems]. *)
Definition deduct_all (vis : list (ValidItem R)) (m : gmap Z (Product R))
    : gmap Z (Product R) :=
  fold_left (λ m v, deduct (to_number (vi_quantity v)) (vi_product_id v) m)
    vis m.

(** The header row [insertOrder] writes for a request. *)
Definition new_order (user : User) (req : OrderRequest) (number : string)
    (id : Z) (total : R) : Order R :=
  mkOrder id (u_id user) number (default "" (customer_name req))
    (or_null (customer_email req)) (or_null (customer_phone req))
    (default "" (customer_address req)) total "pending"
    (or_else (payment_method req) "cash") "pending" (or_null (notes req)).

(** The number the next call of [generateOrderNumber] returns. *)
Definition next_number (w : World R) : string :=
  order_number_of (entropy w (draws w)).

(** The world a fully written order leaves. *)
Definition commit (user : User) (req : OrderRequest) (total : R)
    (vis : list (ValidItem R)) (w : World R) : World R :=
  let s := db w in
  let id := orders_seq s + 1 in
  mkWorld
    (mkStore (deduct_all vis (products s))
       (<[id := new_order user req (next_number w) id total]> (orders s))
       id
       (order_items s ++ item_rows id (order_items_seq s) vis)
       (order_items_seq s + Z.of_nat (length vis)))
    (members w) (entropy w) (S (draws w)).

(** The store after a status update that found its order. *)
Definition updated (id : Z) (st : string) (s : Store R) : Store R :=
  mkStore
    (if String.eqb st "cancelled"
     then restore_all (items_of s id) (products s) else products s)
    (alter (set_status st) id (orders s))
    (orders_seq s) (order_items s) (order_items_seq s).

(** What [validate] makes of one cart entry. *)
Definition priced (prods : gmap Z (Product R)) (ci : CartItem)
    (v : ValidItem R) : Prop :=
  ∃ p, prods !! ci_product_id ci = Some p
     ∧ to_number (ci_quantity ci) ≤ p_quantity p
     ∧ v = mkValidItem (ci_product_id ci) (p_name p) (ci_quantity ci)
             (p_price p) (r_mul (p_price p) (to_number (ci_quantity ci))).



(** Every product has a stock of at least zero. *)
Definition nonneg_stock (s : Store R) : Prop :=
  map_Forall (λ _ p, 0 ≤ p_quantity p) (products s).

(** No recorded order row carries a negative quantity. *)
Definition nonneg_items (s : Store R) : Prop :=
  Forall (λ it, 0 ≤ oi_quantity it) (order_items s).

(** Ids handed out so far: [AUTOINCREMENT] never reuses an id, and the
    foreign key of [order_items] only lets rows point at orders that
    were inserted. *)
Definition ids_issued (s : Store R) : Prop :=
  Forall (λ it, oi_order_id it ≤ orders_seq s) (order_items s).

(** A cart whose entries name pairwise different products and ask for
    no negative amount. *)
Definition cart_plain (cart : list CartItem) : Prop :=
  NoDup (ci_product_id <$> cart)
  ∧ Forall (λ ci, 0 ≤ to_number (ci_quantity ci)) cart.

(** Entries of [validateItems] that name distinct products, ask for no
    negative amount, and find enough stock in [m]. *)
Definition coverable (m : gmap Z (Product R)) (vis : list (ValidItem R))
    : Prop :=
  NoDup (vi_product_id <$> vis)
  ∧ Forall (λ v, 0 ≤ to_number (vi_quantity v)
               ∧ ∃ p, m !! vi_product_id v = Some p
                    ∧ to_number (vi_quantity v) ≤ p_quantity p) vis.

(** The two operations that move stock. *)
Inductive Op :=
  | PlaceOrder (session : option User) (req : OrderRequest)
  | CancelOrder (session : option User) (id : Z).

Definition run_op (op : Op) (w : World R) : Response R * World R :=
  match op with
  | PlaceOrder session req => place_order session req w
  | CancelOrder session id => update_order_status session id "cancelled" w
  end.

(** Running a sequence of operations, collecting the responses. *)
Fixpoint run_ops (ops : list Op) (w : World R)
    : list (Response R) * World R :=
  match ops with
  | [] => ([], w)
  | op :: rest =>
      let '(r, w1) := run_op op w in
      let '(rs, w2) := run_ops rest w1 in
      (r :: rs, w2)
  end.

Definition op_plain (op : Op) : Prop :=
  match op with
  | PlaceOrder _ req => ∀ cart, items req = Some cart → cart_plain cart
  | CancelOrder _ _ => True
  end.

(** ** Further observations *)

(** Whether a string contains the separator of order numbers. *)
Fixpoint has_dash (s : string) : bool :=
  match s with
  | EmptyString => false
  | String c s' => Ascii.eqb c "-"%char || has_dash s'
  end.



(** What the schema promises of [orders] and [order_items]: a row is
    stored under its own id, ids do not exceed the [AUTOINCREMENT]
    counters, order numbers and row ids are not shared, and every order
    row points at an id that was handed out. *)
Definition orders_keyed (s : Store R) : Prop :=
  ∀ id o, orders s !! id = Some o → o_id o = id ∧ id ≤ orders_seq s.

Definition numbers_unique (s : Store R) : Prop :=
  ∀ i j oi oj,
    orders s !! i = Some oi → orders s !! j = Some oj →
    o_order_number oi = o_order_number oj → i = j.

Definition rows_keyed (s : Store R) : Prop :=
  NoDup (oi_id <$> order_items s)
  ∧ Forall (λ it, oi_id it ≤ order_items_seq s) (order_items s).

Definition store_wf (s : Store R) : Prop :=
  orders_keyed s ∧ numbers_unique s ∧ rows_keyed s ∧ ids_issued s.

(** A request to one of the three order routes. *)
Inductive Request :=
  | Place (session : option User) (req : OrderRequest)
  | SetStatus (session : option User) (id : Z) (st : string)
  | Fetch (session : option User) (id : Z).

Definition serve (rq : Request) (w : World R) : Response R * World R :=
  match rq with
  | Place session req => place_order session req w
  | SetStatus session id st => update_order_status session id st w
  | Fetch session id => get_order session id w
  end.

(** The world after a sequence of requests. *)
Definition serve_all (rqs : list Request) (w : World R) : World R :=
  fold_left (λ w rq, (serve rq w).2) rqs w.

(** The world the write loop leaves once it has written [vs]. *)
Definition written (oid : Z) (vs : list (ValidItem R)) (w : World R)
    : World R :=
  mkWorld
    (mkStore (deduct_all vs (products (db w))) (orders (db w))
       (orders_seq (db w))
       (order_items (db w) ++ item_rows oid (order_items_seq (db w)) vs)
       (order_items_seq (db w) + Z.of_nat (length vs)))
    (members w) (entropy w) (draws w).

(** The world in which the write loop starts: the header is in. *)
Definition headed (user : User) (req : OrderRequest) (total : R)
    (w : World R) : World R :=
  mkWorld
    (mkStore (products (db w))
       (<[orders_seq (db w) + 1 :=
            new_order user req (next_number w) (orders_seq (db w) + 1)
              total]> (orders (db w)))
       (orders_seq (db w) + 1) (order_items (db w))
       (order_items_seq (db w)))
    (members w) (entropy w) (S (draws w)).

(** Cancelling the same order [n] times in a row. *)
Definition cancel_times (n : nat) (session : option User) (id : Z)
    (w : World R) : World R :=
  Nat.iter n (λ w, (update_order_status session id "cancelled" w).2) w.

End Model.

(** * The other tables and their routes *)

(** What a route other than the three order routes sends: a JSON body
    with status 200, an error body with another status, or a
    redirect. *)
Inductive Reply (A : Type) :=
  | Sent (payload : A)
  | Failed (status : Z) (error : string)
  | Redirected (location : string).
Arguments Sent {A}.
Arguments Failed {A}.
Arguments Redirected {A}.

(** [req.session.user] as the login routes fill it. *)
Record SessionUser := mkSessionUser {
  su_id : Z;
  su_username : string;
  su_email : option string;
  su_role : string
}.

(** ** [settings] *)

(** A row of [settings], stored under its [setting_key] (which is
    [UNIQUE]); the routes never read the row id. *)
Record Setting := mkSetting {
  s_value : string;
  s_description : option string
}.

Section Settings.

Implicit Types (m : gmap string Setting).

(** [requireAuth] in front of a route that only reads. *)
Definition requireAuth_read {A} (session : option SessionUser)
    (handler : SessionUser → Reply A) : Reply A :=
  match session with
  | Some user => handler user
  | None => Failed 401 "Unauthorized"
  end.

(** [requireAuth] in front of a route that may write to [S]. *)
Definition requireAuth_write {A S} (session : option SessionUser)
    (handler : SessionUser → S → Reply A * S) : S → Reply A * S :=
  match session with
  | Some user => handler user
  | None => λ st, (Failed 401 "Unauthorized", st)
  end.

(** [GET /api/settings]: the object built by [settings.forEach], from
    each key to its value and description. *)
Definition get_settings (session : option SessionUser) m
    : Reply (gmap string Setting) :=
  requireAuth_read session (λ _, Sent m).

(** [GET /api/settings/:key] *)
Definition get_setting (session : option SessionUser) (key : string) m
    : Reply (string * Setting) :=
  requireAuth_read session (λ _,
    match m !! key with
    | None => Failed 404 "Setting not found"
    | Some setting => Sent (key, setting)
    end).

(** [PUT /api/settings/:key]; [value = None] is an absent or [null]
    value, and values are taken to be strings.  An existing row gets
    [setting_value = ?, description = COALESCE(?, description)], a
    missing one is inserted. *)
Definition put_setting (session : option SessionUser) (key : string)
    (value description : option string) : gmap string Setting →
    Reply string * gmap string Setting :=
  requireAuth_write session (λ _ m,
    match value with
    | None => (Failed 400 "Setting value is required", m)
    | Some v =>
        match m !! key with
        | Some existing =>
            (Sent "Setting updated successfully",
             <[key := mkSetting v
                        (match or_null description with
                         | Some d => Some d
                         | None => s_description existing
                         end)]> m)
        | None =>
            (Sent "Setting updated successfully",
             <[key := mkSetting v (or_null description)]> m)
        end
    end).

(** [INSERT OR IGNORE INTO settings (setting_key, setting_value,
    description) VALUES (?, ?, ?)] *)
Definition insertSetting (key value descr : string) m
    : gmap string Setting :=
  match m !! key with
  | Some _ => m
  | None => <[key := mkSetting value (Some descr)]> m
  end.

(** The settings [database.js] inserts when the server starts, in the
    order of the file. *)
Definition default_settings : list (string * string * string) :=
  [("low_stock_threshold", "10",
    "Minimum quantity threshold for low stock alerts");
   ("expiry_alert_days", "30",
    "Number of days before expiry to show alert");
   ("items_per_page", "25", "Number of items to display per page");
   ("currency_symbol", "Rs", "Currency symbol");
   ("dark_mode", "false", "Dark mode preference");
   ("date_format", "MM/DD/YYYY", "Date format preference");
   ("low_stock_alerts", "true", "Enable low stock alerts");
   ("new_order_notifications", "true", "Enable new order notifications");
   ("expiry_alerts", "true", "Enable expiry date alerts")].

Definition init_settings m : gmap string Setting :=
  fold_left (λ m row, insertSetting row.1.1 row.1.2 row.2 m)
    default_settings m.

(** A [PUT /api/settings/:key] request, and the table after a sequence
    of them. *)
Record SettingPut := mkSettingPut {
  sp_session : option SessionUser;
  sp_key : string;
  sp_value : option string;
  sp_description : option string
}.

Definition run_puts (puts : list SettingPut) m : gmap string Setting :=
  fold_left (λ m rq,
      (put_setting (sp_session rq) (sp_key rq) (sp_value rq)
         (sp_description rq) m).2) puts m.

End Settings.

(** ** [users] *)

(** A row of [users], stored under its [id]; [created_at] is left
    out. *)
Record Account := mkAccount {
  a_username : string;
  a_password : string;
  a_email : option string;
  a_role : string;
  a_profile_picture : option string
}.

(** The [bcryptjs] calls the routes make: [hashSync password 10] with
    the salt it draws; [compare password hash], which hands its
    callback an error ([None]) or the verdict; and [hash password 10]
    with the salt it draws, which hands its callback an error or the
    hash. *)
Record Bcrypt := mkBcrypt {
  hashSync : string → string → string;
  compare : string → string → option bool;
  hash : string → string → option string
}.

(** The bodies of [POST /api/register] and [POST /api/login]. *)
Record Credentials := mkCredentials {
  c_username : option string;
  c_password : option string;
  c_email : option string;
  c_role : option string
}.

Section Accounts.
Context {R : Type}.

(** The database as the account routes see it: the order tables, and
    [users] with its [AUTOINCREMENT] counter. *)
Record Site := mkSite {
  shop : Store R;
  users : gmap Z Account;
  users_seq : Z
}.

Implicit Types (site : Site) (session : option SessionUser).

(** [SELECT * FROM users WHERE username = ?]; [username] is [UNIQUE],
    so at most one row matches. *)
Definition by_username (us : gmap Z Account) (name : string)
    : option (Z * Account) :=
  head (filter (λ kv, a_username kv.2 = name) (map_to_list us)).

(** [user.role || 'user'] *)
Definition role_of (a : Account) : string :=
  if String.eqb (a_role a) "" then "user" else a_role a.

(** *** [POST /api/register]

    The answer is [{ success, user, message }]; the session is set to
    the new user.  A string stands for its sequence of code units, so
    that [String.length] is [password.length]. *)
Definition register (bc : Bcrypt) (salt : string) (body : Credentials)
    session site : Reply SessionUser * option SessionUser * Site :=
  if falsy (c_username body) || falsy (c_password body)
  then (Failed 400 "Username and password are required", session, site)
  else
    let username := default "" (c_username body) in
    let password := default "" (c_password body) in
    if (String.length password <? 6)%nat
    then (Failed 400 "Password must be at least 6 characters long",
          session, site)
    else
      match by_username (users site) username with
      | Some _ => (Failed 400 "Username already exists", session, site)
      | None =>
          let hashedPassword := hashSync bc password salt in
          let id := users_seq site + 1 in
          let user := mkSessionUser id username (or_null (c_email body))
                        "user" in
          (Sent user, Some user,
           mkSite (shop site)
             (<[id := mkAccount username hashedPassword
                        (or_null (c_email body)) "user" None]> (users site))
             id)
      end.

(** [userRole === 'admin' ? 'admin' : 'customer'] *)
Definition login_page (userRole : string) : string :=
  if String.eqb userRole "admin" then "admin" else "customer".

(** *** [POST /api/login]

    It reads [users] and writes only the session. *)
Definition login (bc : Bcrypt) (body : Credentials) session site
    : Reply SessionUser * option SessionUser :=
  if falsy (c_username body) || falsy (c_password body)
  then (Failed 400 "Username and password are required", session)
  else
    match by_username (users site) (default "" (c_username body)) with
    | None => (Failed 401 "Invalid username or password", session)
    | Some (id, user) =>
        let userRole := role_of user in
        if negb (falsy (c_role body))
           && negb (String.eqb userRole (default "" (c_role body)))
        then (Failed 403
                ("Access denied. This account is for "
                 +:+ login_page userRole +:+ " login. Please use the "
                 +:+ login_page userRole +:+ " login page."), session)
        else
          match compare bc (default "" (c_password body))
                  (a_password user) with
          | None =>
              (Failed 500 "Authentication error. Please try again.",
               session)
          | Some false =>
              (Failed 401 "Invalid username or password", session)
          | Some true =>
              let su := mkSessionUser id (a_username user) (a_email user)
                          userRole in
              (Sent su, Some su)
          end
    end.

(** *** [requireAdmin], after [requireAuth]

    [accepts_html] is [req.accepts('html')]. *)
Definition requireAdmin {A S} (accepts_html : bool) session
    (handler : SessionUser → S → Reply A * S) : S → Reply A * S :=
  match session with
  | Some user =>
      if String.eqb (su_role user) "admin" then handler user
      else if accepts_html then λ st, (Redirected "/shop", st)
      else λ st, (Failed 403 "Admin access required", st)
  | None =>
      if accepts_html then λ st, (Redirected "/admin-login", st)
      else λ st, (Failed 403 "Admin access required", st)
  end.

(** *** [DELETE /api/users/:id]

    [param] is [parseInt(req.params.id)], with [None] for [NaN].  The
    three [DELETE] statements run in one transaction and none of them
    can fail; the answer carries the message and [deletedOrders].  The
    picture file that is unlinked afterwards is outside the model. *)
Definition orders_of (s : Store R) (uid : Z) : gmap Z (Order R) :=
  filter (λ kv, o_user_id kv.2 = uid) (orders s).

Definition delete_user (accepts_html : bool) (param : option Z) session
    : Site → Reply (string * Z) * Site :=
  requireAuth_write session (λ _,
    requireAdmin accepts_html session (λ admin site,
      if bool_decide (param = Some (su_id admin))
      then (Failed 400 "You cannot delete your own account", site)
      else
        match param ≫= (λ userId, (userId,.) <$> users site !! userId) with
        | None => (Failed 404 "User not found", site)
        | Some (userId, user) =>
            if String.eqb (a_role user) "admin"
            then (Failed 400 "Cannot delete admin users", site)
            else
              let orderCount :=
                Z.of_nat (size (orders_of (shop site) userId)) in
              let s := shop site in
              let s' :=
                mkStore (products s)
                  (filter (λ kv, o_user_id kv.2 ≠ userId) (orders s))
                  (orders_seq s)
                  (filter (λ it,
                       orders_of s userId !! oi_order_id it = None)
                     (order_items s))
                  (order_items_seq s) in
              (Sent ("User " +:+ String (ascii_of_nat 34) (a_username user)
                     +:+ String (ascii_of_nat 34)
                           " has been deleted successfully.",
                     orderCount),
               mkSite s' (delete userId (users site)) (users_seq site))
        end)).

(** The site once the account [userId], its orders and their line
    items are gone. *)
Definition without_user (userId : Z) site : Site :=
  mkSite
    (mkStore (products (shop site))
       (filter (λ kv, o_user_id kv.2 ≠ userId) (orders (shop site)))
       (orders_seq (shop site))
       (filter (λ it, orders_of (shop site) userId !! oi_order_id it = None)
          (order_items (shop site)))
       (order_items_seq (shop site)))
    (delete userId (users site)) (users_seq site).

(** *** [PUT /api/user/profile]

    The answer is [{ success, user }] with the session user after the
    change. *)
Definition update_profile (new_username new_email : option string) session
    site : Reply SessionUser * option SessionUser * Site :=
  match session with
  | None => (Failed 401 "Unauthorized", session, site)
  | Some me =>
      if falsy new_username || falsy new_email
      then (Failed 400 "Username and email are required", session, site)
      else
        let username := default "" new_username in
        match filter (λ kv, a_username kv.2 = username ∧ kv.1 ≠ su_id me)
                (map_to_list (users site)) with
        | _ :: _ => (Failed 400 "Username already taken", session, site)
        | [] =>
            let su := mkSessionUser (su_id me) username new_email
                        (su_role me) in
            (Sent su, Some su,
             mkSite (shop site)
               (alter (λ a, mkAccount username (a_password a) new_email
                              (a_role a) (a_profile_picture a))
                  (su_id me) (users site))
               (users_seq site))
        end
  end.

(** *** [POST /api/user/change-password] *)
Definition change_password (bc : Bcrypt) (salt : string)
    (currentPassword newPassword : option string) session site
    : Reply string * Site :=
  match session with
  | None => (Failed 401 "Unauthorized", site)
  | Some me =>
      if falsy currentPassword || falsy newPassword
      then (Failed 400 "Current and new passwords are required", site)
      else if (String.length (default "" newPassword) <? 6)%nat
      then (Failed 400 "New password must be at least 6 characters", site)
      else
        match users site !! su_id me with
        | None => (Failed 404 "User not found", site)
        | Some user =>
            match compare bc (default "" currentPassword)
                    (a_password user) with
            | None => (Failed 500 "Password verification error", site)
            | Some false => (Failed 401 "Current password is incorrect", site)
            | Some true =>
                match hash bc (default "" newPassword) salt with
                | None => (Failed 500 "Password hashing error", site)
                | Some hashed =>
                    (Sent "Password changed successfully",
                     mkSite (shop site)
                       (alter (λ a, mkAccount (a_username a) hashed
                                      (a_email a) (a_role a)
                                      (a_profile_picture a))
                          (su_id me) (users site))
                       (users_seq site))
                end
            end
        end
  end.

(** *** The default administrator of [database.js]

    Run when the server starts: the account ['admin'] is created if no
    account has that name, and an account of that name with another
    role is given the role ['admin'] and the default password. *)
Definition init_admin (bc : Bcrypt) (salt : string) site : Site :=
  let defaultAdminPassword := hashSync bc "admin123" salt in
  match by_username (users site) "admin" with
  | None =>
      mkSite (shop site)
        (<[users_seq site + 1 :=
             mkAccount "admin" defaultAdminPassword
               (Some "admin@pharmacy.com") "admin" None]> (users site))
        (users_seq site + 1)
  | Some (id, existingAdmin) =>
      if negb (String.eqb (a_role existingAdmin) "admin")
      then
        mkSite (shop site)
          (alter (λ a, mkAccount (a_username a) defaultAdminPassword
                         (a_email a) "admin" (a_profile_picture a))
             id (users site))
          (users_seq site)
      else site
  end.

(** *** Observations on accounts *)

(** [username TEXT UNIQUE]: no two accounts share a name. *)
Definition usernames_unique (us : gmap Z Account) : Prop :=
  ∀ i j ai aj,
    us !! i = Some ai → us !! j = Some aj →
    a_username ai = a_username aj → i = j.

(** Unique names, and no id beyond the counter. *)
Definition accounts_wf site : Prop :=
  usernames_unique (users site)
  ∧ ∀ id a, users site !! id = Some a → id ≤ users_seq site.

(** The foreign key of [order_items]: every line item belongs to an
    order that exists. *)
Definition items_linked (s : Store R) : Prop :=
  Forall (λ it, is_Some (orders s !! oi_order_id it)) (order_items s).

(** A request to one of the routes that touch [users], [orders] or
    [order_items], with the session it arrives in; an order route comes
    with the clock and random readings it will see, and finds in
    [users] the accounts of the site. *)
Inductive SiteRequest :=
  | Register (salt : string) (body : Credentials)
      (session : option SessionUser)
  | Login (body : Credentials) (session : option SessionUser)
  | UpdateProfile (new_username new_email : option string)
      (session : option SessionUser)
  | DeleteUser (accepts_html : bool) (param : option Z)
      (session : option SessionUser)
  | OrderRoute (rq : Request) (readings : nat → Sample) (drawn : nat).

Definition serve_site `{!Real R} (bc : Bcrypt) (rq : SiteRequest) site
    : Site :=
  match rq with
  | Register salt body session => (register bc salt body session site).2
  | Login _ _ => site
  | UpdateProfile name mail session =>
      (update_profile name mail session site).2
  | DeleteUser accepts_html param session =>
      (delete_user accepts_html param session site).2
  | OrderRoute rq readings drawn =>
      mkSite
        (db (serve rq
               (mkWorld (shop site) (dom (users site)) readings drawn)).2)
        (users site) (users_seq site)
  end.

Definition serve_site_all `{!Real R} (bc : Bcrypt) (rqs : list SiteRequest)
    site : Site :=
  fold_left (λ site rq, serve_site bc rq site) rqs site.

End Accounts.
Arguments Site : clear implicits.

(** ** Concrete stores used by the examples below

    Prices are amounts in cents, so [R] is [Z]. *)
Module Demo.

Definition aspirin (q : Z) : Product Z := mkProduct "Aspirin" q 10000.
Definition bandage (q : Z) : Product Z := mkProduct "Bandage" q 5000.

(** Two products, no orders yet. *)
Definition shop (q1 q2 : Z) : Store Z :=
  mkStore (<[1 := aspirin q1]> (<[2 := bandage q2]> ∅)) ∅ 0 [] 0.

(** The clock advances by one millisecond per call and the random
    number is always one half. *)
Definition ticking (k : nat) : Sample := mkSample (1000 + Z.of_nat k) (1 # 2).



Definition jane : User := mkUser 7 "user".
Definition omar : User := mkUser 8 "user".
Definition root : User := mkUser 1 "admin".

(** The ids of their accounts. *)
Definition everyone : gset Z := {[1; 7; 8]}.

Definition cart_request (cart : list CartItem) : OrderRequest :=
  mkOrderRequest (Some cart) (Some "Jane") None None (Some "123 Rd")
    None None.

Definition entry (pid q : Z) : CartItem := mkCartItem pid (Some q).

(** An order of Jane's for three units of aspirin, as the store holds
    it, and the store holding it. *)
Definition janes_order : Order Z :=
  mkOrder 1 7 "ORD-1000-500" "Jane" None None "123 Rd" 30000 "pending"
    "cash" "pending" None.

Definition janes_row : OrderItem Z :=
  mkOrderItem 1 1 1 "Aspirin" 3 10000 30000.

Definition after_jane : Store Z :=
  mkStore (<[1 := aspirin 7]> (<[2 := bandage 10]> ∅))
    (<[1 := janes_order]> ∅) 1 [janes_row] 1.

(** A new shop, the shop after Jane's first order, and the shop after
    that order was cancelled by the administrator. *)
Definition fresh (q1 q2 : Z) : World Z :=
  mkWorld (shop q1 q2) everyone ticking 0.

Definition placed (q1 q2 : Z) (cart : list CartItem) : World Z :=
  (place_order (Some jane) (cart_request cart) (fresh q1 q2)).2.

Definition cancelled (q1 q2 : Z) (cart : list CartItem) : World Z :=
  (update_order_status (Some root) 1 "cancelled" (placed q1 q2 cart)).2.

(** Jane's first order when it is for five units of aspirin. *)
Definition five_aspirin (st : string) : Order Z :=
  mkOrder 1 7 "ORD-1000-500" "Jane" None None "123 Rd" 50000 st
    "cash" "pending" None.

(** A stand-in for [bcryptjs] that stores the password as it is. *)
Definition plain_bcrypt : Bcrypt :=
  mkBcrypt (λ password _, password)
    (λ password hashed, Some (String.eqb password hashed))
    (λ password _, Some password).

(** The administrator that [database.js] creates and the customer
    Jane, whose order is in the store. *)
Definition accounts : gmap Z Account :=
  <[1 := mkAccount "admin" "admin123" (Some "admin@pharmacy.com") "admin"
           None]>
    (<[7 := mkAccount "jane" "secret7" None "user" None]> ∅).

Definition site : Site Z := mkSite after_jane accounts 8.

Definition root_session : SessionUser :=
  mkSessionUser 1 "admin" (Some "admin@pharmacy.com") "admin".

Definition jane_session : SessionUser := mkSessionUser 7 "jane" None "user".

Definition signup (name password : string) : Credentials :=
  mkCredentials (Some name) (Some password) None None.

End Demo.

(** * Properties *)

(** ** Rounding *)

Lemma round_half_even_nonneg n d : 0 ≤ n → 0 < d → 0 ≤ round_half_even n d.
Proof.
  intros Hn Hd. unfold round_half_even.
  pose proof (Z.div_pos n d Hn Hd). destruct (_ || _); lia.
Qed.

(** Safe integers are doubles. *)
Lemma to_double_safe z : Z.abs z ≤ max_safe → to_double z = z.
Proof.
  unfold max_safe, to_double. intros Hz.
  destruct (Z.ltb_spec (Z.abs z) (2 ^ 53)); [done|lia].
Qed.

Lemma to_double_nonneg z : 0 ≤ z → 0 ≤ to_double z.
Proof.
  intros Hz. unfold to_double.
  destruct (Z.ltb_spec (Z.abs z) (2 ^ 53)); [done|].
  apply Z.mul_nonneg_nonneg; [lia|].
  apply Z.mul_nonneg_nonneg.
  - apply round_half_even_nonneg; [lia|]. apply Z.pow_pos_nonneg; [lia|].
    assert (53 ≤ Z.log2 (Z.abs z)); [|lia].
    apply Z.log2_le_pow2; lia.
  - apply Z.pow_nonneg. lia.
Qed.

Lemma round_double_nonneg x : (0 <= x)%Q → (0 <= round_double x)%Q.
Proof.
  intros Hx. unfold round_double.
  destruct (Z.leb_spec (Qnum x) 0); [done|].
  unfold Qle. simpl. rewrite Z.mul_1_r.
  apply Z.mul_nonneg_nonneg; [|apply Z.pow_nonneg; lia].
  apply round_half_even_nonneg;
    [apply Z.mul_nonneg_nonneg; [lia|apply Z.pow_nonneg; lia]|].
  apply Z.mul_pos_pos; [lia|]. apply Z.pow_pos_nonneg; lia.
Qed.

Lemma round_half_even_le n d :
  0 ≤ n → 0 < d →
  ∃ q r, n = q * d + r ∧ 0 ≤ r < d
       ∧ (round_half_even n d = q
          ∨ (round_half_even n d = q + 1 ∧ d ≤ 2 * r)).
Proof.
  intros Hn Hd. exists (n / d), (n mod d).
  split; [rewrite Z.mul_comm; by apply Z.div_mod; lia|].
  split; [by apply Z.mod_pos_bound|].
  unfold round_half_even.
  destruct (Z.ltb_spec d (2 * (n mod d))); simpl; [right; lia|].
  destruct (Z.eqb_spec (2 * (n mod d)) d); simpl; [|by left].
  destruct (Z.odd (n / d)); [right; lia|by left].
Qed.

(** A product that is at most a thousand times the largest double
    below one is rounded to a double below a thousand. *)
Lemma round_double_below (y : Q) :
  Qnum y * 2 ^ 53 ≤ 1000 * max_safe * Zpos (Qden y) →
  Qfloor (round_double y) ≤ 999.
Proof.
  unfold max_safe. destruct y as [n dp]. cbn [Qnum Qden].
  set (d := Z.pos dp). assert (Hd : 0 < d) by done. intros Hy.
  unfold round_double. cbn [Qnum Qden]. fold d.
  destruct (Z.leb_spec n 0) as [Hn|Hn].
  { unfold Qfloor. fold d.
    pose proof (Z.div_le_upper_bound n d 0 Hd). lia. }
  assert (Hlt : n < 1000 * d) by lia.
  pose proof (Z.log2_spec n Hn) as [Ha1 Ha2].
  pose proof (Z.log2_spec d Hd) as [Hb1 Hb2].
  pose proof (Z.log2_nonneg n) as Ha0.
  pose proof (Z.log2_nonneg d) as Hb0.
  set (a := Z.log2 n) in *. set (b := Z.log2 d) in *.
  rewrite <- Z.add_1_r in Ha2, Hb2. clearbody a b d.
  assert (Hl10 : a - b ≤ 10).
  { assert (2 ^ a < 2 ^ (b + 11)); [|apply Z.pow_lt_mono_r_iff in H; lia].
    rewrite (Z.pow_add_r 2 b 11) by lia.
    rewrite (Z.pow_add_r 2 b 1) in Hb2 by lia.
    change (2 ^ 11) with 2048. change (2 ^ 1) with 2 in Hb2. lia. }
  remember (a - b) as l eqn:Hl.
  set (e := if n * 2 ^ Z.max 0 (- l) <? d * 2 ^ Z.max 0 l then l - 1 else l).
  assert (He9 : e ≤ 9).
  { unfold e.
    destruct (Z.ltb_spec (n * 2 ^ Z.max 0 (- l)) (d * 2 ^ Z.max 0 l))
      as [|Hge]; [lia|].
    destruct (decide (l ≤ 9)); [done|]. assert (l = 10) as -> by lia.
    change (2 ^ (0 `max` 10)) with 1024 in Hge.
    change (2 ^ (0 `max` (- (10)))) with 1 in Hge. lia. }
  assert (Hk : 43 ≤ 52 - e) by lia.
  assert (He512 : 512 * d ≤ n → e = 9).
  { intros H512.
    assert (Hl9 : 9 ≤ l).
    { assert (2 ^ (b + 9) < 2 ^ (a + 1));
        [|apply Z.pow_lt_mono_r_iff in H; lia].
      rewrite (Z.pow_add_r 2 b 9) by lia. change (2 ^ 9) with 512. lia. }
    unfold e. assert (l = 9 ∨ l = 10) as [->| ->] by lia.
    - change (2 ^ (0 `max` (- (9)))) with 1.
      change (2 ^ (0 `max` 9)) with 512.
      destruct (Z.ltb_spec (n * 1) (d * 512)); lia.
    - change (2 ^ (0 `max` (- (10)))) with 1.
      change (2 ^ (0 `max` 10)) with 1024.
      destruct (Z.ltb_spec (n * 1) (d * 1024)); lia. }
  set (k := 52 - e) in *.
  rewrite (Z.max_r 0 k), (Z.max_l 0 (- k)) by lia.
  change (2 ^ 0) with 1. rewrite !Z.mul_1_r.
  assert (Hpk : 0 < 2 ^ k) by (apply Z.pow_pos_nonneg; lia).
  unfold Qfloor. rewrite Z2Pos.id by done.
  assert (Hm : round_half_even (n * 2 ^ k) d < 1000 * 2 ^ k);
    [|pose proof (Z.div_lt_upper_bound _ _ 1000 Hpk
        ltac:(rewrite Z.mul_comm; exact Hm)); lia].
  destruct (round_half_even_le (n * 2 ^ k) d) as (q & r & Hqr & Hr & Hcase);
    [lia|done|].
  destruct (decide (n < 512 * d)) as [Hsmall|Hbig].
  - assert (q < 512 * 2 ^ k) by nia. lia.
  - assert (e = 9) as He by (apply He512; lia).
    assert (k = 43) as Hk43 by (unfold k; lia).
    rewrite Hk43 in *. change (2 ^ 43) with 8796093022208 in *.
    change (2 ^ 53) with 9007199254740992 in *.
    destruct Hcase as [->|[-> Hhalf]]; nia.
Qed.

(** ** The order routes *)

Section Properties.
Context {R : Type} `{!Real R}.

Implicit Types (w : World R) (s : Store R) (m : gmap Z (Product R)).
Implicit Types (vis vs : list (ValidItem R)) (its : list (OrderItem R)).

(** Unfolding one monadic step. *)
Ltac db_unfold :=
  unfold mbind, Db_bind, db_bind, mret, Db_ret, db_ret, get_db, put_db,
    throw in *.

Lemma world_eta w : mkWorld (db w) (members w) (entropy w) (draws w) = w.
Proof. by destruct w. Qed.

Lemma store_eta s :
  mkStore (products s) (orders s) (orders_seq s) (order_items s)
    (order_items_seq s) = s.
Proof. by destruct s. Qed.

Lemma set_quantity_id (p : Product R) : set_quantity (p_quantity p) p = p.
Proof. by destruct p. Qed.

(** *** The validation loop *)

Lemma validate_inr m cart total acc total' vis :
  validate m cart total acc = inr (total', vis) →
  ∃ new, vis = acc ++ new
       ∧ Forall2 (priced m) cart new
       ∧ total' = fold_left (λ t v, r_add t (vi_subtotal v)) new total.
Proof.
  revert total acc. induction cart as [|ci cart IH]; intros total acc; simpl.
  - intros [= <- <-]. exists []. by rewrite app_nil_r.
  - destruct (m !! ci_product_id ci) as [p|] eqn:Hp; [|done].
    destruct (Z.ltb_spec (p_quantity p) (to_number (ci_quantity ci)));
      [done|].
    intros Hv. apply IH in Hv as (new & -> & Hall & ->).
    eexists (_ :: new). rewrite <- app_assoc. split; [done|].
    split; [|done].
    constructor; [|done]. exists p. by repeat split.
Qed.



(** *** The write loop *)

Lemma write_items_ok oid vis w :
  Forall (λ v, is_Some (vi_quantity v)) vis →
  for_each (write_item oid) vis w =
    (Returned tt,
     mkWorld
       (mkStore (deduct_all vis (products (db w))) (orders (db w))
          (orders_seq (db w))
          (order_items (db w) ++ item_rows oid (order_items_seq (db w)) vis)
          (order_items_seq (db w) + Z.of_nat (length vis)))
       (members w) (entropy w) (draws w)).
Proof.
  intros Hall. revert w.
  induction Hall as [|v vis [q Hq] _ IH]; intros w; simpl.
  - db_unfold. rewrite app_nil_r, Z.add_0_r, store_eta. by rewrite world_eta.
  - db_unfold. unfold write_item, insertOrderItem, updateProduct. db_unfold.
    rewrite Hq. simpl. rewrite IH. simpl.
    rewrite <- app_assoc. simpl.
    do 3 f_equal. lia.
Qed.

Lemma write_items_null oid vis w :
  Exists (λ v, vi_quantity v = None) vis →
  ∃ msg w', for_each (write_item oid) vis w = (Thrown msg, w').
Proof.
  intros Hex. revert w.
  induction vis as [|v vis IH]; intros w; [by apply Exists_nil in Hex|].
  simpl. db_unfold. unfold write_item, insertOrderItem, updateProduct.
  db_unfold.
  destruct (vi_quantity v) as [q|] eqn:Hq; simpl; [|by eauto].
  apply Exists_cons in Hex as [Hbad|Hex]; [congruence|].
  edestruct (IH Hex) as (msg & w' & ->). eauto.
Qed.

(** *** The routes, case by case *)

Lemma items_of_commit user req total vis w :
  ids_issued (db w) →
  items_of (db (commit user req total vis w)) (orders_seq (db w) + 1)
  = item_rows (orders_seq (db w) + 1) (order_items_seq (db w)) vis.
Proof.
  intros Hwf. unfold items_of, commit. simpl.
  rewrite filter_app.
  assert (Hold : filter (λ it : OrderItem R,
                    oi_order_id it = orders_seq (db w) + 1)
                   (order_items (db w)) = []).
  { induction Hwf as [|it l Hit _ IH]; [done|].
    rewrite filter_cons_False by lia. done. }
  rewrite Hold. simpl.
  generalize (order_items_seq (db w)). clear.
  induction vis as [|v vis IH]; intros seq; simpl; [done|].
  rewrite filter_cons_True by done. by rewrite IH.
Qed.

Lemma write_order_commits user req total vis w :
  Forall (λ v, is_Some (vi_quantity v)) vis →
  order_number_taken (db w) (next_number w) = false →
  u_id user ∈ members w →
  write_order user req total vis w =
    (Returned
       (json 200
          (BCreated
             (Some (new_order user req (next_number w)
                      (orders_seq (db w) + 1) total))
             (items_of (db (commit user req total vis w))
                (orders_seq (db w) + 1)))),
     commit user req total vis w).
Proof.
  intros Hq Hfresh Hmem.
  unfold write_order, generateOrderNumber, insertOrder, get_members.
  db_unfold. simpl. fold (next_number w).
  rewrite Hfresh, (bool_decide_eq_true_2 _ Hmem). simpl.
  rewrite (write_items_ok _ _ _ Hq). simpl.
  unfold getOrder, getOrderItems. db_unfold. simpl.
  by rewrite lookup_insert_eq.
Qed.

Lemma write_order_collision user req total vis w :
  order_number_taken (db w) (next_number w) = true →
  write_order user req total vis w =
    (Thrown "UNIQUE constraint failed: orders.order_number",
     mkWorld (db w) (members w) (entropy w) (S (draws w))).
Proof.
  intros Htaken.
  unfold write_order, generateOrderNumber, insertOrder, get_members.
  db_unfold. simpl. fold (next_number w). by rewrite Htaken.
Qed.

(** The session of a user whose row is gone. *)
Lemma write_order_orphan user req total vis w :
  order_number_taken (db w) (next_number w) = false →
  u_id user ∉ members w →
  write_order user req total vis w =
    (Thrown "FOREIGN KEY constraint failed",
     mkWorld (db w) (members w) (entropy w) (S (draws w))).
Proof.
  intros Hfresh Hmem.
  unfold write_order, generateOrderNumber, insertOrder, get_members.
  db_unfold. simpl. fold (next_number w).
  by rewrite Hfresh, (bool_decide_eq_false_2 _ Hmem).
Qed.

Lemma write_order_null user req total vis w :
  Exists (λ v, vi_quantity v = None) vis →
  ∃ msg w', write_order user req total vis w = (Thrown msg, w').
Proof.
  intros Hnull.
  destruct (order_number_taken (db w) (next_number w)) eqn:Hfresh;
    [rewrite write_order_collision by done; by eauto|].
  destruct (decide (u_id user ∈ members w)) as [Hmem|Hmem];
    [|rewrite write_order_orphan by done; by eauto].
  unfold write_order, generateOrderNumber, insertOrder, get_members.
  db_unfold. simpl. fold (next_number w).
  rewrite Hfresh, (bool_decide_eq_true_2 _ Hmem). simpl.
  edestruct (write_items_null (orders_seq (db w) + 1) vis) as (msg & w' & ->);
    [done|]. eauto.
Qed.

(** A request that reaches the validation loop. *)
Lemma place_order_validated user req cart w :
  items req = Some cart → cart ≠ [] →
  falsy (customer_name req) = false →
  falsy (customer_address req) = false →
  place_order (Some user) req w =
    match validate (products (db w)) cart r_zero [] with
    | inl error => (json 400 (BError error), w)
    | inr (total, vis) => try_catch (write_order user req total vis) w
    end.
Proof.
  intros Hitems Hne Hname Haddr.
  unfold place_order, requireAuth. rewrite Hitems.
  destruct cart as [|ci cart]; [done|].
  rewrite Hname, Haddr. cbn [orb].
  generalize (ci :: cart). intros c.
  unfold try_catch. db_unfold.
  by destruct (validate _ c _ _) as [e|[total vis]].
Qed.

(** A request that is turned away before the validation loop. *)
Lemma place_order_malformed user req w :
  items req = None ∨ items req = Some []
  ∨ falsy (customer_name req) = true
  ∨ falsy (customer_address req) = true →
  ∃ msg, place_order (Some user) req w = (json 400 (BError msg), w).
Proof.
  intros Hbad. unfold place_order, requireAuth, try_catch. db_unfold.
  destruct (items req) as [[|ci cart]|]; [by eauto| |by eauto].
  destruct Hbad as [?|[?|[->| ->]]]; try done; [by eauto|].
  rewrite orb_true_r. by eauto.
Qed.



(** What a 200 answer of [POST /api/orders] implies. *)
Lemma place_order_200_member session req w resp w' :
  place_order session req w = (resp, w') →
  status resp = 200 →
  ∃ user cart total vis,
    u_id user ∈ members w
    ∧ session = Some user
    ∧ items req = Some cart
    ∧ validate (products (db w)) cart r_zero [] = inr (total, vis)
    ∧ Forall (λ v, is_Some (vi_quantity v)) vis
    ∧ order_number_taken (db w) (next_number w) = false
    ∧ w' = commit user req total vis w
    ∧ resp = json 200
               (BCreated
                  (Some (new_order user req (next_number w)
                           (orders_seq (db w) + 1) total))
                  (items_of (db w') (orders_seq (db w) + 1))).
Proof.
  intros Hrun Hst.
  destruct session as [user|]; [|by injection Hrun as <- <-].
  destruct (items req) as [cart|] eqn:Hitems;
    [|unfold place_order, requireAuth, try_catch in Hrun; rewrite Hitems in Hrun;
      by injection Hrun as <- <-].
  destruct (decide (cart = [])) as [->|Hne];
    [unfold place_order, requireAuth, try_catch in Hrun; rewrite Hitems in Hrun;
      by injection Hrun as <- <-|].
  destruct (falsy (customer_name req)) eqn:Hname.
  { destruct (place_order_malformed user req w) as [msg Hm]; [by auto|].
    rewrite Hm in Hrun. by injection Hrun as <- <-. }
  destruct (falsy (customer_address req)) eqn:Haddr.
  { destruct (place_order_malformed user req w) as [msg Hm]; [by auto 6|].
    rewrite Hm in Hrun. by injection Hrun as <- <-. }
  rewrite (place_order_validated user req cart w) in Hrun by done.
  destruct (validate _ _ _ _) as [e|[total vis]] eqn:Hval;
    [by injection Hrun as <- <-|].
  exists user, cart, total, vis.
  destruct (decide (Forall (λ v, is_Some (vi_quantity v)) vis)) as [Hq|Hq].
  - destruct (order_number_taken (db w) (next_number w)) eqn:Hfresh.
    { unfold try_catch in Hrun.
      rewrite write_order_collision in Hrun by done.
      by injection Hrun as <- <-. }
    destruct (decide (u_id user ∈ members w)) as [Hmem|Hmem].
    + unfold try_catch in Hrun.
      rewrite write_order_commits in Hrun by done.
      injection Hrun as <- <-. by repeat split.
    + unfold try_catch in Hrun.
      rewrite write_order_orphan in Hrun by done.
      by injection Hrun as <- <-.
  - apply not_Forall_Exists in Hq; [|solve_decision].
    destruct (write_order_null user req total vis w) as (msg & w1 & Hw).
    { eapply Exists_impl; [exact Hq|]. simpl. intros v Hv.
      destruct (vi_quantity v); [|done]. by destruct Hv. }
    unfold try_catch in Hrun. rewrite Hw in Hrun.
    by injection Hrun as <- <-.
Qed.

Lemma place_order_200 session req w resp w' :
  place_order session req w = (resp, w') →
  status resp = 200 →
  ∃ user cart total vis,
    session = Some user
    ∧ items req = Some cart
    ∧ validate (products (db w)) cart r_zero [] = inr (total, vis)
    ∧ Forall (λ v, is_Some (vi_quantity v)) vis
    ∧ order_number_taken (db w) (next_number w) = false
    ∧ w' = commit user req total vis w
    ∧ resp = json 200
               (BCreated
                  (Some (new_order user req (next_number w)
                           (orders_seq (db w) + 1) total))
                  (items_of (db w') (orders_seq (db w) + 1))).
Proof.
  intros Hrun Hst.
  destruct (place_order_200_member _ _ _ _ _ Hrun Hst)
    as (user & cart & total & vis & _ & Hrest).
  by exists user, cart, total, vis.
Qed.

(** *** Stock arithmetic *)

Lemma lookup_deduct q pid m pid' :
  deduct q pid m !! pid' =
    (λ p, set_quantity
            (if bool_decide (pid = pid') then to_double (p_quantity p - q)
             else p_quantity p) p)
    <$> m !! pid'.
Proof.
  unfold deduct. rewrite lookup_alter. case_bool_decide; case_decide; try done.
  - by subst.
  - destruct (m !! pid') as [p|]; simpl; [|done].
    by rewrite set_quantity_id.
Qed.

Lemma lookup_restore q pid m pid' :
  restore q pid m !! pid' =
    (λ p, set_quantity
            (if bool_decide (pid = pid') then to_double (p_quantity p + q)
             else p_quantity p) p)
    <$> m !! pid'.
Proof.
  unfold restore. rewrite lookup_alter. case_bool_decide; case_decide; try done.
  - by subst.
  - destruct (m !! pid') as [p|]; simpl; [|done].
    by rewrite set_quantity_id.
Qed.

Lemma valid_size_nonneg vis pid : 0 ≤ valid_size vis pid.
Proof. induction vis as [|v vis IH]; simpl; [done|]. case_bool_decide; lia. Qed.

Lemma rows_size_nonneg its pid : 0 ≤ rows_size its pid.
Proof. induction its as [|it its IH]; simpl; [done|]. case_bool_decide; lia. Qed.

(** While there is room, the deductions of the write loop add up
    exactly. *)
Lemma lookup_deduct_all vis m pid :
  (∀ p, m !! pid = Some p →
        Z.abs (p_quantity p) + valid_size vis pid ≤ max_safe) →
  deduct_all vis m !! pid =
    (λ p, set_quantity (p_quantity p - deducted pid vis) p) <$> m !! pid.
Proof.
  unfold deduct_all. revert m.
  induction vis as [|v vis IH]; intros m Hroom; simpl.
  - destruct (m !! pid) as [p|]; simpl; [|done].
    by rewrite Z.sub_0_r, set_quantity_id.
  - rewrite IH.
    + rewrite lookup_deduct.
      destruct (m !! pid) as [p|] eqn:Hp; simpl; [|done].
      specialize (Hroom p eq_refl). simpl in Hroom.
      pose proof (valid_size_nonneg vis pid).
      unfold set_quantity; simpl.
      case_bool_decide; [rewrite to_double_safe by lia|];
        do 2 f_equal; lia.
    + intros p'. rewrite lookup_deduct.
      destruct (m !! pid) as [p|] eqn:Hp; simpl; [|done].
      intros [= <-]. simpl.
      specialize (Hroom p eq_refl). simpl in Hroom.
      pose proof (valid_size_nonneg vis pid).
      case_bool_decide; [rewrite to_double_safe by lia|]; lia.
Qed.

(** Likewise for the restorations of a cancelled order. *)
Lemma lookup_restore_all its m pid :
  (∀ p, m !! pid = Some p →
        Z.abs (p_quantity p) + rows_size its pid ≤ max_safe) →
  restore_all its m !! pid =
    (λ p, set_quantity (p_quantity p + ordered pid its) p) <$> m !! pid.
Proof.
  unfold restore_all. revert m.
  induction its as [|it its IH]; intros m Hroom; simpl.
  - destruct (m !! pid) as [p|]; simpl; [|done].
    by rewrite Z.add_0_r, set_quantity_id.
  - rewrite IH.
    + rewrite lookup_restore.
      destruct (m !! pid) as [p|] eqn:Hp; simpl; [|done].
      specialize (Hroom p eq_refl). simpl in Hroom.
      pose proof (rows_size_nonneg its pid).
      unfold set_quantity; simpl.
      case_bool_decide; [rewrite to_double_safe by lia|];
        do 2 f_equal; lia.
    + intros p'. rewrite lookup_restore.
      destruct (m !! pid) as [p|] eqn:Hp; simpl; [|done].
      intros [= <-]. simpl.
      specialize (Hroom p eq_refl). simpl in Hroom.
      pose proof (rows_size_nonneg its pid).
      case_bool_decide; [rewrite to_double_safe by lia|]; lia.
Qed.

(** Rounding never takes a stock below zero. *)
Lemma restore_all_nonneg its m pid p' :
  Forall (λ it, 0 ≤ oi_quantity it) its →
  (∀ p, m !! pid = Some p → 0 ≤ p_quantity p) →
  restore_all its m !! pid = Some p' → 0 ≤ p_quantity p'.
Proof.
  unfold restore_all. intros Hall. revert m.
  induction Hall as [|it its Hq _ IH]; intros m Hm; simpl; [apply Hm|].
  apply IH. intros p. rewrite lookup_restore.
  destruct (m !! pid) as [p0|] eqn:Hp0; simpl; [|done].
  intros [= <-]. simpl. specialize (Hm _ eq_refl).
  case_bool_decide; [apply to_double_nonneg; lia|done].
Qed.

Lemma ordered_item_rows oid seq vis pid :
  ordered pid (item_rows oid seq vis) = deducted pid vis.
Proof.
  revert seq. induction vis as [|v vis IH]; intros seq; simpl; [done|].
  by rewrite IH.
Qed.

Lemma rows_size_item_rows oid seq vis pid :
  rows_size (item_rows oid seq vis) pid = valid_size vis pid.
Proof.
  revert seq. induction vis as [|v vis IH]; intros seq; simpl; [done|].
  by rewrite IH.
Qed.

Lemma deducted_priced m cart vis pid :
  Forall2 (priced m) cart vis → deducted pid vis = requested pid cart.
Proof.
  induction 1 as [|ci v cart vis (p & _ & _ & ->) _ IH]; simpl; [done|].
  by rewrite IH.
Qed.

Lemma valid_size_priced m cart vis pid :
  Forall2 (priced m) cart vis → valid_size vis pid = cart_size cart pid.
Proof.
  induction 1 as [|ci v cart vis (p & _ & _ & ->) _ IH]; simpl; [done|].
  by rewrite IH.
Qed.

(** The stock an accepted cart leaves, and the stock a cancellation
    leaves. *)
Lemma stock_deduct_all vis s pid :
  room_for s (valid_size vis) →
  p_quantity <$> deduct_all vis (products s) !! pid
  = (λ q, q - deducted pid vis) <$> stock s pid.
Proof.
  intros Hroom. unfold stock. rewrite lookup_deduct_all.
  - by destruct (products s !! pid).
  - intros p Hp. apply Hroom. unfold stock. by rewrite Hp.
Qed.

Lemma stock_restore_all its s pid :
  room_for s (rows_size its) →
  p_quantity <$> restore_all its (products s) !! pid
  = (λ q, q + ordered pid its) <$> stock s pid.
Proof.
  intros Hroom. unfold stock. rewrite lookup_restore_all.
  - by destruct (products s !! pid).
  - intros p Hp. apply Hroom. unfold stock. by rewrite Hp.
Qed.

(** *** The status route *)

Lemma restore_items_ok its w :
  for_each restore_item its w =
    (Returned tt,
     mkWorld (with_products (restore_all its (products (db w))) (db w))
       (members w) (entropy w) (draws w)).
Proof.
  revert w. induction its as [|it its IH]; intros w; simpl.
  - db_unfold. unfold with_products. by rewrite store_eta, world_eta.
  - db_unfold. unfold restore_item, restoreProduct. db_unfold.
    by rewrite IH.
Qed.

Lemma valid_status_spec st :
  existsb (String.eqb st) validStatuses = true ↔ st ∈ validStatuses.
Proof.
  rewrite existsb_exists. split.
  - intros (x & Hx & ->%String.eqb_eq). by apply list_elem_of_In.
  - intros Hx. exists st. split; [by apply list_elem_of_In|].
    apply String.eqb_refl.
Qed.

Lemma update_order_status_found user id st o w :
  st ∈ validStatuses →
  orders (db w) !! id = Some o →
  update_order_status (Some user) id st w =
    (json 200 (BSuccess "Order status updated successfully"),
     mkWorld (updated id st (db w)) (members w) (entropy w) (draws w)).
Proof.
  intros Hst Ho. apply valid_status_spec in Hst.
  unfold update_order_status, requireAuth, try_catch. rewrite Hst. simpl.
  unfold updateOrder. db_unfold. simpl. rewrite Ho. simpl.
  unfold updated.
  destruct (String.eqb st "cancelled"); simpl; [|done].
  unfold getOrderItems. db_unfold. simpl.
  by rewrite restore_items_ok.
Qed.

Lemma update_order_status_missing user id st w :
  st ∈ validStatuses →
  orders (db w) !! id = None →
  update_order_status (Some user) id st w =
    (json 404 (BError "Order not found"), w).
Proof.
  intros Hst Ho. apply valid_status_spec in Hst.
  unfold update_order_status, requireAuth, try_catch. rewrite Hst. simpl.
  unfold updateOrder. db_unfold. simpl. rewrite Ho. simpl.
  f_equal. destruct w as [s ids e d]; simpl. f_equal.
  destruct s; simpl in *. f_equal.
  apply map_eq. intros i. rewrite lookup_alter.
  case_decide; [subst; by rewrite Ho|done].
Qed.

Lemma update_order_status_invalid session id st w :
  st ∉ validStatuses →
  (update_order_status session id st w).2 = w.
Proof.
  intros Hst. rewrite <- valid_status_spec in Hst.
  apply not_true_is_false in Hst.
  unfold update_order_status, requireAuth, try_catch.
  destruct session; [|done]. by rewrite Hst.
Qed.

(** *** Reading an order *)

Lemma get_order_found user id o w :
  orders (db w) !! id = Some o →
  get_order (Some user) id w = (json 200 (BOrder o (items_of (db w) id)), w).
Proof.
  intros Ho. unfold get_order, requireAuth, try_catch, getOrder. db_unfold.
  rewrite Ho. unfold getOrderItems. db_unfold.
  by destruct (negb _).
Qed.

(** C10. [GET /api/orders/:id] makes no use of who is asking: for an
    order that exists, every signed-in caller gets status 200 with the
    order row and its line items, the same answer as any other caller,
    whoever owns the order. *)
Theorem get_order_any_caller w id o (caller other : User) :
  orders (db w) !! id = Some o →
  get_order (Some caller) id w
    = (json 200 (BOrder o (items_of (db w) id)), w)
  ∧ get_order (Some other) id w = get_order (Some caller) id w.
Proof.
  intros Ho. by rewrite !(get_order_found _ id o).
Qed.

(** *** Requests turned away by validation *)


(** *** A taken order number *)


(** *** Totals *)

Lemma sum_item_rows oid seq vis (t : R) :
  fold_left (λ acc it, r_add acc (oi_subtotal it)) (item_rows oid seq vis) t
  = fold_left (λ acc v, r_add acc (vi_subtotal v)) vis t.
Proof.
  revert seq t. induction vis as [|v vis IH]; intros seq t; simpl; [done|].
  by rewrite IH.
Qed.

Lemma item_rows_priced m cart vis oid seq :
  Forall2 (priced m) cart vis →
  Forall (λ it, oi_subtotal it = r_mul (oi_price it) (oi_quantity it)
              ∧ ∃ p, m !! oi_product_id it = Some p
                   ∧ oi_price it = p_price p)
    (item_rows oid seq vis).
Proof.
  intros Hall. revert seq.
  induction Hall as [|ci v cart vis (p & Hp & _ & ->) _ IH]; intros seq;
    simpl; [done|].
  constructor; [|by apply IH]. simpl. split; [done|]. by exists p.
Qed.

(** X30. An order that [POST /api/orders] answered with status 200
    is stored under its id with exactly the returned line items; its
    [total_amount] is the sum of their subtotals, taken from zero in
    row order, and every line item's subtotal is its price times its
    quantity, the price being the one the product had when the order
    was placed. *)
Theorem order_total_reconciles session req w resp w' :
  ids_issued (db w) →
  place_order session req w = (resp, w') →
  status resp = 200 →
  ∃ o its,
    body resp = BCreated (Some o) its
    ∧ orders (db w') !! o_id o = Some o
    ∧ its = items_of (db w') (o_id o)
    ∧ o_total_amount o = sum_subtotals its
    ∧ Forall (λ it, oi_subtotal it = r_mul (oi_price it) (oi_quantity it)
                  ∧ ∃ p, products (db w) !! oi_product_id it = Some p
                       ∧ oi_price it = p_price p) its.
Proof.
  intros Hwf Hrun Hst.
  destruct (place_order_200 _ _ _ _ _ Hrun Hst)
    as (user & cart & total & vis & _ & _ & Hval & _ & _ & -> & ->).
  apply validate_inr in Hval as (new & Hvis & Hpriced & Htotal).
  simpl in Hvis. subst vis.
  eexists _, _. split; [reflexivity|]. cbn [o_id o_total_amount new_order].
  split; [simpl; by rewrite lookup_insert_eq|].
  split; [done|].
  rewrite items_of_commit by done.
  split.
  - unfold sum_subtotals. by rewrite sum_item_rows.
  - by eapply item_rows_priced.
Qed.

(** *** Status updates and stock *)

Lemma room_for_ext s (size size' : Z → Z) :
  (∀ pid, size pid = size' pid) → room_for s size → room_for s size'.
Proof. intros Heq Hroom pid q Hq. rewrite <- Heq. by apply Hroom. Qed.

(** C3, as the code has it. For an existing order and a valid new
    status the update succeeds, and it touches stock exactly when the
    status is ['cancelled']: any other status leaves the products as
    they were. On a cancellation every row of the order has its
    quantity added back to its product. Quantities are doubles, so the
    sums are exact as long as the stocks and the quantities of the rows
    are safe integers with room for these additions: then every product
    ends with its stock plus the units the order holds of it, and
    cancelling an order right after it was placed gives every product
    the stock it had before the order. *)
Theorem status_update_inventory w user id o st :
  orders (db w) !! id = Some o →
  st ∈ validStatuses →
  ∃ w',
    update_order_status (Some user) id st w
      = (json 200 (BSuccess "Order status updated successfully"), w')
    ∧ (st ≠ "cancelled" → products (db w') = products (db w))
    ∧ (st = "cancelled" →
         room_for (db w) (rows_size (items_of (db w) id)) →
         (∀ pid, stock (db w') pid
               = (λ q, q + ordered pid (items_of (db w) id))
                 <$> stock (db w) pid)
         ∧ (∀ w0 session req its,
              ids_issued (db w0) →
              room_for (db w0) (rows_size its) →
              place_order session req w0
                = (json 200 (BCreated (Some o) its), w) →
              id = o_id o →
              ∀ pid, stock (db w') pid = stock (db w0) pid)).
Proof.
  intros Ho Hst. eexists. split; [by eapply update_order_status_found|].
  simpl. split.
  - intros Hne. apply String.eqb_neq in Hne. by rewrite Hne.
  - intros -> Hroom. simpl.
    assert (Hback : ∀ pid,
              p_quantity <$>
                restore_all (items_of (db w) id) (products (db w)) !! pid
              = (λ q, q + ordered pid (items_of (db w) id))
                <$> stock (db w) pid)
      by (intros pid; by apply stock_restore_all).
    split; [done|].
    intros w0 session req its Hwf Hroom0 Hrun Hid pid.
    unfold stock at 1. simpl. rewrite Hback. clear Hback Hroom.
    destruct (place_order_200 _ _ _ _ _ Hrun eq_refl)
      as (u & cart & total & vis & _ & _ & _ & _ & _ & Hw & Hresp).
    injection Hresp as Ho' Hits. subst o. cbn [o_id new_order] in Hid.
    subst id w its. rewrite items_of_commit in * by done.
    rewrite ordered_item_rows. unfold stock at 1. simpl.
    rewrite stock_deduct_all.
    + destruct (stock (db w0) pid); simpl; [|done]. f_equal. lia.
    + eapply room_for_ext; [|exact Hroom0].
      intros pid'. apply rows_size_item_rows.
Qed.

(** C4, as the code has it. The status route never looks at the
    status an order already has: cancelling an order that is already
    ['cancelled'] succeeds like any other update and adds the
    quantities of its rows to the stock once more (exactly so while the
    stocks and quantities are safe integers with room for the
    additions). *)
Theorem recancel_restores_again w user id o :
  orders (db w) !! id = Some o →
  o_status o = "cancelled" →
  room_for (db w) (rows_size (items_of (db w) id)) →
  ∃ w',
    update_order_status (Some user) id "cancelled" w
      = (json 200 (BSuccess "Order status updated successfully"), w')
    ∧ ∀ pid, stock (db w') pid
           = (λ q, q + ordered pid (items_of (db w) id)) <$> stock (db w) pid.
Proof.
  intros Ho _ Hroom. eexists. split.
  - eapply update_order_status_found; [|done].
    unfold validStatuses. set_solver.
  - intros pid. by apply stock_restore_all.
Qed.

(** *** Quantities of any sign *)


(** *** Invariants of the write loop *)

Lemma for_each_cons {A} (f : A → Db unit) x l w :
  for_each f (x :: l) w =
    match f x w with
    | (Returned _, w') => for_each f l w'
    | (Thrown msg, w') => (Thrown msg, w')
    end.
Proof. reflexivity. Qed.

Lemma write_item_some oid (v : ValidItem R) q w :
  vi_quantity v = Some q →
  write_item oid v w =
    (Returned tt,
     mkWorld
       (mkStore (deduct q (vi_product_id v) (products (db w)))
          (orders (db w)) (orders_seq (db w))
          (order_items (db w) ++
             [mkOrderItem (order_items_seq (db w) + 1) oid (vi_product_id v)
                (vi_product_name v) q (vi_price v) (vi_subtotal v)])
          (order_items_seq (db w) + 1))
       (members w) (entropy w) (draws w)).
Proof.
  intros Hq. unfold write_item, insertOrderItem, updateProduct. db_unfold.
  by rewrite Hq.
Qed.

Lemma write_item_none oid (v : ValidItem R) w :
  vi_quantity v = None →
  write_item oid v w =
    (Thrown "NOT NULL constraint failed: order_items.quantity", w).
Proof.
  intros Hq. unfold write_item, insertOrderItem. db_unfold. by rewrite Hq.
Qed.

Lemma lookup_deduct_ne q pid m pid' :
  pid ≠ pid' → deduct q pid m !! pid' = m !! pid'.
Proof. intros Hne. unfold deduct. by rewrite lookup_alter_ne. Qed.

Lemma write_items_keep oid vis w :
  coverable (products (db w)) vis →
  nonneg_stock (db w) → nonneg_items (db w) →
  nonneg_stock (db (for_each (write_item oid) vis w).2)
  ∧ nonneg_items (db (for_each (write_item oid) vis w).2).
Proof.
  revert w. induction vis as [|v vis IH]; intros w [Hnd Hall] Hst Hit;
    [done|].
  rewrite for_each_cons.
  destruct (vi_quantity v) as [q|] eqn:Hq;
    [|by rewrite (write_item_none _ _ _ Hq)].
  rewrite (write_item_some _ _ _ _ Hq).
  apply Forall_cons in Hall as [(Hq0 & p & Hp & Hle) Hall].
  rewrite Hq in Hq0, Hle. simpl in Hq0, Hle.
  rewrite fmap_cons in Hnd. apply NoDup_cons in Hnd as [Hfresh Hnd].
  apply IH; simpl.
  - split; [done|].
    apply Forall_forall. intros v' Hv'.
    rewrite Forall_forall in Hall. destruct (Hall v' Hv') as (? & p' & Hp' & ?).
    split; [done|]. exists p'. split; [|done].
    rewrite lookup_deduct_ne; [done|].
    intros Heq. apply Hfresh. rewrite Heq. by apply list_elem_of_fmap_2.
  - intros pid p'. unfold nonneg_stock in Hst. simpl.
    rewrite lookup_deduct. intros Hl.
    destruct (products (db w) !! pid) as [p0|] eqn:Hp0; [|done].
    injection Hl as <-. simpl.
    case_bool_decide.
    + subst pid. assert (p0 = p) as -> by congruence.
      apply to_double_nonneg. lia.
    + specialize (Hst _ _ Hp0). simpl in Hst. lia.
  - apply Forall_app. split; [done|]. by repeat constructor.
Qed.

Lemma priced_plain m cart vis :
  Forall2 (priced m) cart vis → cart_plain cart → coverable m vis.
Proof.
  intros Hpr [Hnd Hall].
  assert (Hids : vi_product_id <$> vis = ci_product_id <$> cart).
  { clear Hnd Hall.
    induction Hpr as [|ci v cart vis (p & _ & _ & ->) _ IH]; [done|].
    rewrite !fmap_cons. by rewrite IH. }
  split; [by rewrite Hids|]. clear Hnd Hids.
  induction Hpr as [|ci v cart vis (p & Hp & Hle & ->) _ IH]; [done|].
  apply Forall_cons in Hall as [Hq Hall].
  constructor; [|by apply IH]. simpl. split; [done|]. by exists p.
Qed.

(** The world in which the write loop starts, and the one it ends in. *)
Lemma write_order_world user req total vis w :
  order_number_taken (db w) (next_number w) = false →
  u_id user ∈ members w →
  (write_order user req total vis w).2 =
  (for_each (write_item (orders_seq (db w) + 1)) vis
     (headed user req total w)).2.
Proof.
  intros Hfresh Hmem.
  unfold write_order, generateOrderNumber, insertOrder, get_members.
  db_unfold. simpl. fold (next_number w).
  rewrite Hfresh, (bool_decide_eq_true_2 _ Hmem). simpl.
  unfold headed.
  destruct (for_each _ _ _) as [[[]|msg] w1]; [|done].
  unfold getOrder, getOrderItems. db_unfold. done.
Qed.

Lemma try_catch_world (act : Db (Response R)) w :
  (try_catch act w).2 = (act w).2.
Proof. unfold try_catch. by destruct (act w) as [[r|msg] w1]. Qed.

(** The world [POST /api/orders] leaves: either the one it found, or
    the one the write phase left. *)
Lemma place_order_world session req w :
  (place_order session req w).2 = w
  ∨ ∃ user cart total vis,
      session = Some user
      ∧ items req = Some cart
      ∧ validate (products (db w)) cart r_zero [] = inr (total, vis)
      ∧ (place_order session req w).2 = (write_order user req total vis w).2.
Proof.
  destruct session as [user|]; [|by left].
  destruct (items req) as [cart|] eqn:Hitems.
  2:{ left. destruct (place_order_malformed user req w) as [msg ->]; by auto. }
  destruct (decide (cart = [])) as [->|Hne].
  { left. destruct (place_order_malformed user req w) as [msg ->]; by auto. }
  destruct (falsy (customer_name req)) eqn:Hname.
  { left. destruct (place_order_malformed user req w) as [msg ->]; by auto. }
  destruct (falsy (customer_address req)) eqn:Haddr.
  { left. destruct (place_order_malformed user req w) as [msg ->];
      by auto 6. }
  rewrite (place_order_validated user req cart w) by done.
  destruct (validate _ _ _ _) as [e|[total vis]] eqn:Hval; [by left|].
  right. exists user, cart, total, vis. by rewrite try_catch_world.
Qed.

(** *** The stock invariant *)

Lemma place_order_keeps session req w :
  (∀ cart, items req = Some cart → cart_plain cart) →
  nonneg_stock (db w) → nonneg_items (db w) →
  nonneg_stock (db (place_order session req w).2)
  ∧ nonneg_items (db (place_order session req w).2).
Proof.
  intros Hplain Hst Hit.
  destruct (place_order_world session req w)
    as [->|(user & cart & total & vis & _ & Hitems & Hval & ->)]; [done|].
  destruct (order_number_taken (db w) (next_number w)) eqn:Hfresh.
  { by rewrite write_order_collision. }
  destruct (decide (u_id user ∈ members w)) as [Hmem|Hmem];
    [|by rewrite write_order_orphan].
  rewrite write_order_world by done.
  apply validate_inr in Hval as (new & Hvis & Hpriced & _).
  simpl in Hvis. subst vis.
  apply write_items_keep; simpl; [|done..].
  eapply priced_plain; [done|]. by apply Hplain.
Qed.

Lemma cancel_keeps session id w :
  nonneg_stock (db w) → nonneg_items (db w) →
  nonneg_stock (db (update_order_status session id "cancelled" w).2)
  ∧ nonneg_items (db (update_order_status session id "cancelled" w).2).
Proof.
  intros Hst Hit.
  destruct session as [user|]; [|done].
  assert (Hvalid : "cancelled" ∈ validStatuses)
    by (unfold validStatuses; set_solver).
  destruct (orders (db w) !! id) as [o|] eqn:Ho.
  - rewrite (update_order_status_found user id _ o) by done. simpl.
    split; [|done].
    intros pid p'. simpl. apply restore_all_nonneg.
    + unfold items_of.
      apply Forall_forall. intros it [_ Hin]%list_elem_of_filter.
      unfold nonneg_items in Hit. rewrite Forall_forall in Hit.
      by apply Hit.
    + intros p Hp. by apply (Hst _ _ Hp).
  - by rewrite update_order_status_missing.
Qed.

Lemma run_ops_cons op ops w :
  (run_ops (op :: ops) w).2 = (run_ops ops (run_op op w).2).2.
Proof.
  simpl. destruct (run_op op w) as [r w1]. simpl.
  by destruct (run_ops ops w1).
Qed.

Lemma run_ops_keep ops w :
  Forall op_plain ops →
  nonneg_stock (db w) → nonneg_items (db w) →
  nonneg_stock (db (run_ops ops w).2) ∧ nonneg_items (db (run_ops ops w).2).
Proof.
  intros Hops. revert w.
  induction Hops as [|op ops Hop _ IH]; intros w Hst Hit; [done|].
  rewrite run_ops_cons.
  destruct op as [session req|session id]; simpl.
  - destruct (place_order_keeps session req w Hop Hst Hit). by apply IH.
  - destruct (cancel_keeps session id w Hst Hit). by apply IH.
Qed.

(** C2, as the code has it. Start from a store in which no product has
    negative stock and no recorded order row has a negative quantity,
    and run any sequence of order placements and cancellations in which
    no cart asks for a negative amount or names a product twice. Then
    after every operation of the sequence, whether it was answered with
    success or not, no product has negative stock. *)
Theorem plain_orders_keep_stock (ops : list Op) w :
  nonneg_stock (db w) →
  nonneg_items (db w) →
  Forall op_plain ops →
  ∀ k, nonneg_stock (db (run_ops (take k ops) w).2).
Proof.
  intros Hst Hit Hops k.
  apply run_ops_keep; [|done..]. by apply Forall_take.
Qed.

(** *** Ids are never reused *)

Lemma write_items_ids oid vis w :
  oid ≤ orders_seq (db w) →
  ids_issued (db w) →
  ids_issued (db (for_each (write_item oid) vis w).2).
Proof.
  revert w. induction vis as [|v vis IH]; intros w Hle Hwf; [done|].
  rewrite for_each_cons.
  destruct (vi_quantity v) as [q|] eqn:Hq;
    [|by rewrite (write_item_none _ _ _ Hq)].
  rewrite (write_item_some _ _ _ _ Hq).
  apply IH; simpl; [done|].
  unfold ids_issued. simpl. apply Forall_app. split; [done|].
  by repeat constructor.
Qed.

(** [ids_issued] holds of a store without orders and is kept by the
    routes, so it holds of every store they can reach from there. *)
Lemma place_order_ids session req w :
  ids_issued (db w) → ids_issued (db (place_order session req w).2).
Proof.
  intros Hwf.
  destruct (place_order_world session req w)
    as [->|(user & cart & total & vis & _ & _ & _ & ->)]; [done|].
  destruct (order_number_taken (db w) (next_number w)) eqn:Hfresh.
  { by rewrite write_order_collision. }
  destruct (decide (u_id user ∈ members w)) as [Hmem|Hmem];
    [|by rewrite write_order_orphan].
  rewrite write_order_world by done.
  apply write_items_ids; simpl; [done|].
  unfold ids_issued in *. simpl.
  eapply Forall_impl; [exact Hwf|]. simpl. intros; lia.
Qed.

Lemma update_order_status_ids session id st w :
  ids_issued (db w) → ids_issued (db (update_order_status session id st w).2).
Proof.
  intros Hwf.
  destruct session as [user|]; [|done].
  destruct (decide (st ∈ validStatuses)) as [Hst|Hst];
    [|by rewrite update_order_status_invalid].
  destruct (orders (db w) !! id) as [o|] eqn:Ho.
  - by rewrite (update_order_status_found user id st o).
  - by rewrite update_order_status_missing.
Qed.

(** *** What a failed write phase leaves behind *)

Lemma write_items_orders oid vis w :
  orders (db (for_each (write_item oid) vis w).2) = orders (db w).
Proof.
  revert w. induction vis as [|v vis IH]; intros w; [done|].
  rewrite for_each_cons.
  destruct (vi_quantity v) as [q|] eqn:Hq;
    [|by rewrite (write_item_none _ _ _ Hq)].
  rewrite (write_item_some _ _ _ _ Hq). by rewrite IH.
Qed.

(** Once the header is inserted it stays, whatever happens to the
    items: a request that passed validation with a [null] quantity in
    its cart is answered 500, and the header row is in [orders]. *)
Lemma header_outlives_failure user req cart total vis w :
  items req = Some cart → cart ≠ [] →
  falsy (customer_name req) = false →
  falsy (customer_address req) = false →
  validate (products (db w)) cart r_zero [] = inr (total, vis) →
  Exists (λ v, vi_quantity v = None) vis →
  order_number_taken (db w) (next_number w) = false →
  u_id user ∈ members w →
  ∃ msg w',
    place_order (Some user) req w = (json 500 (BError msg), w')
    ∧ orders (db w') !! (orders_seq (db w) + 1)
      = Some (new_order user req (next_number w) (orders_seq (db w) + 1)
                total).
Proof.
  intros Hitems Hne Hname Haddr Hval Hnull Hfresh Hmem.
  rewrite (place_order_validated user req cart w) by done.
  rewrite Hval. unfold try_catch.
  pose proof (write_order_world user req total vis w Hfresh Hmem) as Hw.
  destruct (write_order_null user req total vis w Hnull) as (msg & w' & Hrun).
  rewrite Hrun in Hw |- *. simpl in Hw. subst w'.
  exists msg. eexists. split; [done|].
  rewrite write_items_orders. simpl. by rewrite lookup_insert_eq.
Qed.

(** * Further properties of the order routes *)

(** *** What an accepted order does *)



(** X1. An accepted order lowers the stock of every product by
    exactly the amount its cart asks for over all entries, and by
    nothing where the cart does not name the product, as long as the
    stocks and the quantities asked for are safe integers with room for
    the deductions; no product row appears or disappears. *)
Theorem accepted_order_deducts_cart session req cart w resp w' :
  items req = Some cart →
  room_for (db w) (cart_size cart) →
  place_order session req w = (resp, w') →
  status resp = 200 →
  ∀ pid, stock (db w') pid
       = (λ q, q - requested pid cart) <$> stock (db w) pid.
Proof.
  intros Hcart Hroom Hrun Hst.
  destruct (place_order_200 _ _ _ _ _ Hrun Hst)
    as (user & cart' & total & vis & _ & Hitems & Hval & _ & _ & -> & _).
  assert (cart' = cart) as -> by congruence.
  apply validate_inr in Hval as (new & Hvis & Hpriced & _).
  simpl in Hvis. subst vis.
  intros pid. unfold stock at 1. simpl.
  rewrite stock_deduct_all, (deducted_priced _ _ _ _ Hpriced); [done|].
  eapply room_for_ext; [|exact Hroom].
  intros pid'. symmetry. by eapply valid_size_priced.
Qed.

Lemma item_rows_mirror m cart vis oid seq :
  Forall2 (priced m) cart vis →
  Forall2 (λ ci it,
             oi_order_id it = oid
             ∧ oi_product_id it = ci_product_id ci
             ∧ oi_quantity it = to_number (ci_quantity ci)
             ∧ ∃ p, m !! ci_product_id ci = Some p
                  ∧ oi_product_name it = p_name p
                  ∧ oi_price it = p_price p)
    cart (item_rows oid seq vis).
Proof.
  intros Hall. revert seq.
  induction Hall as [|ci v cart vis (p & Hp & _ & ->) _ IH]; intros seq;
    simpl; [done|].
  constructor; [|by apply IH]. simpl. repeat split; try done. by exists p.
Qed.

(** X2. The answer to an accepted order carries one line item per
    cart entry, in cart order: the item has the entry's product id and
    quantity, belongs to the new order, and carries the name and price
    the product had when the order was placed. The order itself is
    owned by the signed-in user and starts in status ['pending']. *)
Theorem accepted_order_mirrors_cart session req w resp w' :
  ids_issued (db w) →
  place_order session req w = (resp, w') →
  status resp = 200 →
  ∃ user cart o its,
    session = Some user
    ∧ items req = Some cart
    ∧ body resp = BCreated (Some o) its
    ∧ o_user_id o = u_id user
    ∧ o_status o = "pending"
    ∧ Forall2 (λ ci it,
                 oi_order_id it = o_id o
                 ∧ oi_product_id it = ci_product_id ci
                 ∧ oi_quantity it = to_number (ci_quantity ci)
                 ∧ ∃ p, products (db w) !! ci_product_id ci = Some p
                      ∧ oi_product_name it = p_name p
                      ∧ oi_price it = p_price p) cart its.
Proof.
  intros Hwf Hrun Hst.
  destruct (place_order_200 _ _ _ _ _ Hrun Hst)
    as (user & cart & total & vis & -> & Hitems & Hval & _ & _ & -> & ->).
  apply validate_inr in Hval as (new & Hvis & Hpriced & _).
  simpl in Hvis. subst vis.
  exists user, cart. eexists _, _.
  split; [done|]. split; [done|]. split; [reflexivity|].
  split; [done|]. split; [done|].
  rewrite items_of_commit by done. cbn [o_id new_order].
  by apply item_rows_mirror.
Qed.

(** X3. An order that was just accepted can be read back: whoever is
    signed in, [GET /api/orders/:id] with the id of the answer returns
    status 200 with the same order and the same line items. *)
Theorem accepted_order_reads_back session req w o its w' (caller : User) :
  place_order session req w = (json 200 (BCreated (Some o) its), w') →
  get_order (Some caller) (o_id o) w' = (json 200 (BOrder o its), w').
Proof.
  intros Hrun.
  destruct (place_order_200 _ _ _ _ _ Hrun eq_refl)
    as (user & cart & total & vis & _ & _ & _ & _ & _ & Hw & Hresp).
  injection Hresp as Ho Hits. subst o. cbn [o_id new_order].
  rewrite (get_order_found caller _
             (new_order user req (next_number w) (orders_seq (db w) + 1)
                total)).
  - by rewrite <- Hits.
  - subst w'. simpl. by rewrite lookup_insert_eq.
Qed.


(** *** The first entry that fails *)



(** *** The write loop, entry by entry *)

Lemma for_each_app {A} (f : A → Db unit) l1 l2 w :
  for_each f (l1 ++ l2) w =
    match for_each f l1 w with
    | (Returned _, w') => for_each f l2 w'
    | (Thrown msg, w') => (Thrown msg, w')
    end.
Proof.
  revert w. induction l1 as [|x l1 IH]; intros w; [done|].
  rewrite <- app_comm_cons, !for_each_cons.
  destruct (f x w) as [[[]|msg] w1]; [apply IH|done].
Qed.

Lemma write_items_written oid vs w :
  Forall (λ v, is_Some (vi_quantity v)) vs →
  for_each (write_item oid) vs w = (Returned tt, written oid vs w).
Proof. apply write_items_ok. Qed.

(** The loop writes the entries up to the first [null] quantity and
    stops there. *)
Lemma write_items_run oid vis w :
  ∃ vs rest,
    vis = vs ++ rest
    ∧ Forall (λ v, is_Some (vi_quantity v)) vs
    ∧ (for_each (write_item oid) vis w).2 = written oid vs w
    ∧ (rest = [] ∨ ∃ v rest', rest = v :: rest' ∧ vi_quantity v = None).
Proof.
  destruct (decide (Forall (λ v, is_Some (vi_quantity v)) vis)) as [Hq|Hq].
  - exists vis, []. rewrite app_nil_r. split; [done|]. split; [done|].
    split; [by rewrite write_items_written|by left].
  - apply not_Forall_Exists in Hq; [|solve_decision].
    induction vis as [|v vis IH]; [by apply Exists_nil in Hq|].
    destruct (vi_quantity v) as [q|] eqn:Hv.
    + apply Exists_cons in Hq as [Hq|Hq];
        [destruct Hq; rewrite Hv; by eexists|].
      destruct (IH Hq) as (vs & rest & -> & Hvs & _ & Hrest).
      exists (v :: vs), rest. split; [done|].
      split; [constructor; [by rewrite Hv|done]|].
      split; [|done].
      destruct Hrest as [->|(v' & rest' & -> & Hnone)].
      { rewrite app_nil_r. rewrite write_items_written; [done|].
        constructor; [by rewrite Hv|done]. }
      change (v :: vs ++ v' :: rest') with ((v :: vs) ++ v' :: rest').
      rewrite for_each_app, write_items_written;
        [|constructor; [by rewrite Hv|done]].
      by rewrite for_each_cons, (write_item_none _ _ _ Hnone).
    + exists [], (v :: vis). split; [done|]. split; [done|].
      split; [|right; by eauto].
      rewrite for_each_cons, (write_item_none _ _ _ Hv). simpl.
      unfold written. simpl.
      by rewrite app_nil_r, Z.add_0_r, store_eta, world_eta.
Qed.



Lemma items_of_written_other oid vs w id :
  id ≠ oid →
  items_of (db (written oid vs w)) id = items_of (db w) id.
Proof.
  intros Hne. unfold items_of, written. simpl. rewrite filter_app.
  assert (Hnil : ∀ seq, filter (λ it : OrderItem R, oi_order_id it = id)
                          (item_rows oid seq vs) = []).
  { induction vs as [|v vs IH]; intros seq; simpl; [done|].
    rewrite filter_cons_False by (simpl; congruence). apply IH. }
  by rewrite Hnil, app_nil_r.
Qed.


(** *** Requests served one after the other *)

Lemma room_for_check s (size : Z → Z) :
  map_Forall (λ pid p, Z.abs (p_quantity p) + size pid ≤ max_safe)
    (products s) →
  room_for s size.
Proof.
  intros Hall pid q. unfold stock.
  destruct (products s !! pid) as [p|] eqn:Hp; [|done].
  intros [= <-]. by apply (Hall pid p).
Qed.






(** *** Every world an order request can leave *)

Lemma place_order_outcome session req w :
  db (place_order session req w).2 = db w
  ∨ ∃ user total vs,
      order_number_taken (db w) (next_number w) = false
      ∧ Forall (λ v, is_Some (vi_quantity v)) vs
      ∧ (place_order session req w).2
        = written (orders_seq (db w) + 1) vs (headed user req total w).
Proof.
  destruct (place_order_world session req w)
    as [->|(user & cart & total & vis & _ & _ & _ & ->)]; [by left|].
  destruct (order_number_taken (db w) (next_number w)) eqn:Hfresh.
  { left. by rewrite write_order_collision. }
  destruct (decide (u_id user ∈ members w)) as [Hmem|Hmem];
    [|left; by rewrite write_order_orphan].
  right. rewrite write_order_world by done.
  destruct (write_items_run (orders_seq (db w) + 1) vis
              (headed user req total w)) as (vs & rest & _ & Hvs & Hrun & _).
  exists user, total, vs. split; [done|]. split; [done|]. exact Hrun.
Qed.

Lemma order_number_free s n :
  order_number_taken s n = false →
  ∀ id o, orders s !! id = Some o → o_order_number o ≠ n.
Proof.
  intros Hfree id o Ho Heq.
  apply not_true_iff_false in Hfree. apply Hfree.
  unfold order_number_taken. apply existsb_exists. exists (id, o).
  split; [|by apply String.eqb_eq].
  apply list_elem_of_In. by apply elem_of_map_to_list.
Qed.

Lemma item_rows_ids oid seq vs :
  Forall (λ it, seq < oi_id it ≤ seq + Z.of_nat (length vs)
              ∧ oi_order_id it = oid) (item_rows oid seq vs).
Proof.
  revert seq. induction vs as [|v vs IH]; intros seq; simpl; [done|].
  constructor; [simpl; lia|].
  eapply Forall_impl; [apply IH|]. simpl. intros it. lia.
Qed.

Lemma item_rows_nodup oid seq vs : NoDup (oi_id <$> item_rows oid seq vs).
Proof.
  revert seq. induction vs as [|v vs IH]; intros seq; simpl;
    [constructor|].
  constructor; [|apply IH].
  intros (it & Hid & Hin)%list_elem_of_fmap.
  pose proof (item_rows_ids oid (seq + 1) vs) as Hall.
  rewrite Forall_forall in Hall. apply Hall in Hin. simpl in Hid. lia.
Qed.

Lemma written_headed_wf user req total vs w :
  order_number_taken (db w) (next_number w) = false →
  store_wf (db w) →
  store_wf (db (written (orders_seq (db w) + 1) vs (headed user req total w))).
Proof.
  intros Hfree (Hkey & Huniq & [Hnd Hrows] & Hiss).
  pose proof (order_number_free _ _ Hfree) as Hnew.
  split; [|split; [|split]].
  - intros id o. simpl. rewrite lookup_insert.
    case_decide as Hid.
    + intros [= <-]. simpl. split; [done|lia].
    + intros Ho. destruct (Hkey _ _ Ho). split; [done|lia].
  - intros i j oi oj. simpl. rewrite !lookup_insert.
    repeat case_decide; subst; try done.
    + intros [= <-] Hj Heq. simpl in Heq. by edestruct Hnew.
    + intros Hi [= <-] Heq. simpl in Heq. by edestruct Hnew.
    + apply Huniq.
  - split; simpl.
    + rewrite fmap_app. apply NoDup_app. split; [done|].
      split; [|apply item_rows_nodup].
      intros x (it & -> & Hin)%list_elem_of_fmap
               (it' & Hid & Hin')%list_elem_of_fmap.
      rewrite Forall_forall in Hrows. apply Hrows in Hin.
      pose proof (item_rows_ids (orders_seq (db w) + 1)
                    (order_items_seq (db w)) vs) as Hall.
      rewrite Forall_forall in Hall. apply Hall in Hin'. lia.
    + apply Forall_app. split.
      * eapply Forall_impl; [exact Hrows|]. simpl. intros; lia.
      * eapply Forall_impl; [apply item_rows_ids|]. simpl. intros; lia.
  - unfold ids_issued. simpl. apply Forall_app. split.
    + eapply Forall_impl; [exact Hiss|]. simpl. intros; lia.
    + eapply Forall_impl; [apply item_rows_ids|]. simpl. intros; lia.
Qed.

Lemma place_order_wf session req w :
  store_wf (db w) → store_wf (db (place_order session req w).2).
Proof.
  intros Hwf.
  destruct (place_order_outcome session req w)
    as [->|(user & total & vs & Hfree & _ & ->)]; [done|].
  by apply written_headed_wf.
Qed.

Lemma updated_wf id st s : store_wf s → store_wf (updated id st s).
Proof.
  intros (Hkey & Huniq & Hrows & Hiss).
  assert (Hlook : ∀ i o', alter (set_status st) id (orders s) !! i = Some o' →
                    ∃ o, orders s !! i = Some o
                       ∧ o_id o' = o_id o
                       ∧ o_order_number o' = o_order_number o).
  { intros i o'. rewrite lookup_alter. case_decide.
    - subst. destruct (orders s !! i) as [o|]; [|done].
      intros [= <-]. by exists o.
    - intros Ho. by exists o'. }
  split; [|split; [|done]].
  - intros i o' (o & Ho & -> & _)%Hlook. by apply Hkey.
  - intros i j oi oj (o1 & H1 & _ & ->)%Hlook (o2 & H2 & _ & ->)%Hlook.
    by apply Huniq.
Qed.

Lemma update_order_status_wf session id st w :
  store_wf (db w) → store_wf (db (update_order_status session id st w).2).
Proof.
  intros Hwf.
  destruct session as [user|]; [|done].
  destruct (decide (st ∈ validStatuses)) as [Hst|Hst];
    [|by rewrite update_order_status_invalid].
  destruct (orders (db w) !! id) as [o|] eqn:Ho.
  - rewrite (update_order_status_found user id st o) by done.
    by apply updated_wf.
  - by rewrite update_order_status_missing.
Qed.

Lemma get_order_world session id w : (get_order session id w).2 = w.
Proof.
  destruct session as [user|]; [|done].
  destruct (orders (db w) !! id) as [o|] eqn:Ho.
  - by rewrite (get_order_found user id o).
  - unfold get_order, requireAuth, try_catch, getOrder. db_unfold.
    by rewrite Ho.
Qed.

(** X7. The three order routes keep the tables in the shape the
    schema asks for, whatever requests arrive and however they end:
    each order is stored under its own id, no id exceeds its counter,
    no two orders share an order number, no two line items share an
    id, and every line item points at an order id that was handed
    out. *)
Theorem routes_keep_schema (rqs : list Request) w :
  store_wf (db w) → store_wf (db (serve_all rqs w)).
Proof.
  revert w. induction rqs as [|rq rqs IH]; intros w Hwf; [done|].
  apply IH. destruct rq as [session req|session id st|session id]; simpl.
  - by apply place_order_wf.
  - by apply update_order_status_wf.
  - by rewrite get_order_world.
Qed.

(** X8. A new order never touches an earlier one. Whether the request
    is accepted, turned away or fails midway, every order that was in
    the store is still there unchanged, with the same line items. *)
Theorem earlier_orders_untouched session req w id o :
  store_wf (db w) →
  orders (db w) !! id = Some o →
  orders (db (place_order session req w).2) !! id = Some o
  ∧ items_of (db (place_order session req w).2) id = items_of (db w) id.
Proof.
  intros (Hkey & _) Ho.
  destruct (Hkey _ _ Ho) as [_ Hle].
  destruct (place_order_outcome session req w)
    as [->|(user & total & vs & _ & _ & ->)]; [done|].
  split.
  - simpl. rewrite lookup_insert_ne by lia. done.
  - rewrite items_of_written_other by (simpl; lia). done.
Qed.

(** *** More on the status route *)

(** X9. Any valid status can be set on an existing order whatever
    status it has, by any signed-in user. Reading the order afterwards
    gives the same row with only the status replaced, and the same
    line items; no other order and no line item changes. *)
Theorem status_update_reads_back w (user caller : User) id o st :
  orders (db w) !! id = Some o →
  st ∈ validStatuses →
  ∃ w',
    update_order_status (Some user) id st w
      = (json 200 (BSuccess "Order status updated successfully"), w')
    ∧ get_order (Some caller) id w'
      = (json 200 (BOrder (set_status st o) (items_of (db w) id)), w')
    ∧ (∀ id', id' ≠ id → orders (db w') !! id' = orders (db w) !! id')
    ∧ order_items (db w') = order_items (db w).
Proof.
  intros Ho Hst. eexists. split; [by eapply update_order_status_found|].
  split; [|split; [|done]].
  - rewrite (get_order_found caller id (set_status st o)); [done|].
    simpl. rewrite lookup_alter_eq. by rewrite Ho.
  - intros id' Hne. simpl. by rewrite lookup_alter_ne.
Qed.

(** X10. A status outside the five valid ones is answered 400, and a
    valid status for an order that does not exist is answered 404; the
    status is checked first. In both cases nothing changes. *)
Theorem status_update_rejected (user : User) id st w :
  st ∉ validStatuses ∨ orders (db w) !! id = None →
  update_order_status (Some user) id st w
  = (if bool_decide (st ∈ validStatuses)
     then json 404 (BError "Order not found")
     else json 400 (BError "Invalid order status"), w).
Proof.
  intros Hbad. case_bool_decide as Hst.
  - destruct Hbad as [?|Ho]; [done|].
    by apply update_order_status_missing.
  - rewrite <- valid_status_spec in Hst. apply not_true_is_false in Hst.
    unfold update_order_status, requireAuth, try_catch. by rewrite Hst.
Qed.

Lemma cancel_times_order n (user : User) id o w :
  orders (db w) !! id = Some o →
  is_Some (orders (db (cancel_times n (Some user) id w)) !! id)
  ∧ order_items (db (cancel_times n (Some user) id w)) = order_items (db w)
  ∧ (∀ on, orders (db (cancel_times n (Some user) id w)) !! id = Some on →
       cancel_times (S n) (Some user) id w
       = mkWorld (updated id "cancelled"
                    (db (cancel_times n (Some user) id w)))
           (members (cancel_times n (Some user) id w))
           (entropy (cancel_times n (Some user) id w))
           (draws (cancel_times n (Some user) id w))).
Proof.
  intros Ho.
  assert (Hvalid : "cancelled" ∈ validStatuses)
    by (unfold validStatuses; set_solver).
  assert (Hstep : ∀ k on,
            orders (db (cancel_times k (Some user) id w)) !! id = Some on →
            cancel_times (S k) (Some user) id w
            = mkWorld (updated id "cancelled"
                         (db (cancel_times k (Some user) id w)))
                (members (cancel_times k (Some user) id w))
                (entropy (cancel_times k (Some user) id w))
                (draws (cancel_times k (Some user) id w))).
  { intros k on Hon. unfold cancel_times in *. rewrite Nat.iter_succ.
    by rewrite (update_order_status_found user id "cancelled" on). }
  induction n as [|n (Hsome & Hitems & _)].
  - split; [by eexists|]. split; [done|apply Hstep].
  - destruct Hsome as [on Hon]. rewrite (Hstep n on Hon).
    split; [simpl; rewrite lookup_alter_eq, Hon; by eexists|].
    split; [done|]. rewrite <- (Hstep n on Hon). apply Hstep.
Qed.

Lemma ordered_within its pid : Z.abs (ordered pid its) ≤ rows_size its pid.
Proof.
  induction its as [|it its IH]; simpl; [done|]. case_bool_decide; lia.
Qed.

Lemma cancel_times_stock n (user : User) id o w :
  orders (db w) !! id = Some o →
  room_for (db w)
    (λ pid, Z.of_nat n * rows_size (items_of (db w) id) pid) →
  ∀ pid, stock (db (cancel_times n (Some user) id w)) pid
       = (λ q, q + Z.of_nat n * ordered pid (items_of (db w) id))
         <$> stock (db w) pid.
Proof.
  intros Ho. induction n as [|n IH]; intros Hroom pid.
  - simpl. destruct (stock (db w) pid); simpl; [|done]. f_equal. lia.
  - assert (Hless : room_for (db w)
              (λ pid, Z.of_nat n * rows_size (items_of (db w) id) pid)).
    { intros pid' q Hq. specialize (Hroom pid' q Hq). simpl in Hroom.
      pose proof (rows_size_nonneg (items_of (db w) id) pid'). nia. }
    specialize (IH Hless).
    destruct (cancel_times_order n user id o w Ho)
      as ([on Hon] & Hitems & Hstep).
    rewrite (Hstep on Hon). unfold stock at 1. simpl.
    assert (Hsame : items_of (db (cancel_times n (Some user) id w)) id
                    = items_of (db w) id)
      by (unfold items_of; by rewrite Hitems).
    rewrite Hsame, stock_restore_all.
    + rewrite IH. destruct (stock (db w) pid); simpl; [|done].
      f_equal. lia.
    + intros pid' q. rewrite IH. intros Hq.
      destruct (stock (db w) pid') as [q0|] eqn:Hq0; [|done].
      injection Hq as <-.
      specialize (Hroom pid' q0 Hq0). simpl in Hroom.
      pose proof (ordered_within (items_of (db w) id) pid').
      pose proof (rows_size_nonneg (items_of (db w) id) pid'). nia.
Qed.

(** X11. Cancelling the same order [n] times in a row succeeds each
    time, and, as long as the stocks and the quantities of its line
    items are safe integers with room for [n] such additions, adds
    these quantities [n] times: each product ends with its stock plus
    [n] times the units the order holds of it. *)
Theorem repeated_cancel_adds_up n (user : User) id o w :
  orders (db w) !! id = Some o →
  room_for (db w)
    (λ pid, Z.of_nat n * rows_size (items_of (db w) id) pid) →
  (∀ k, (k < n)%nat →
     (update_order_status (Some user) id "cancelled"
        (cancel_times k (Some user) id w)).1
     = json 200 (BSuccess "Order status updated successfully"))
  ∧ ∀ pid, stock (db (cancel_times n (Some user) id w)) pid
         = (λ q, q + Z.of_nat n * ordered pid (items_of (db w) id))
           <$> stock (db w) pid.
Proof.
  intros Ho Hroom. split; [|by eapply cancel_times_stock].
  intros k _.
  destruct (cancel_times_order k user id o w Ho) as ([on Hon] & _ & _).
  rewrite (update_order_status_found user id "cancelled" on); [done| |done].
  unfold validStatuses. set_solver.
Qed.

(** *** More on reading an order *)

(** X12. Reading an order changes nothing, whatever the answer; for a
    signed-in caller the answer is 404 exactly when no order has the
    id, and 200 otherwise. *)
Theorem get_order_only_reads session id w :
  (get_order session id w).2 = w
  ∧ ∀ caller, session = Some caller →
      (status (get_order session id w).1 = 404
         ↔ orders (db w) !! id = None)
      ∧ (status (get_order session id w).1 = 200
         ↔ is_Some (orders (db w) !! id)).
Proof.
  split; [apply get_order_world|].
  intros caller ->.
  destruct (orders (db w) !! id) as [o|] eqn:Ho.
  - rewrite (get_order_found caller id o) by done. simpl.
    split; split; try done; by eexists.
  - unfold get_order, requireAuth, try_catch, getOrder. db_unfold.
    rewrite Ho. simpl. split; split; try done; by intros [? ?].
Qed.

(** *** Order numbers *)

Lemma pretty_N_go_dashless (x : N) (acc : string) :
  has_dash acc = false → has_dash (pretty_N_go x acc) = false.
Proof.
  revert acc. induction (N.lt_wf_0 x) as [x _ IH]; intros acc Hs.
  assert (x = 0 ∨ 0 < x)%N as [->|?] by lia.
  - by rewrite pretty_N_go_0.
  - rewrite pretty_N_go_step by done. apply IH.
    { by apply N.div_lt. }
    simpl. rewrite Hs. unfold pretty_N_char. by repeat case_match.
Qed.

Lemma pretty_dashless (z : Z) : 0 ≤ z → has_dash (pretty z) = false.
Proof.
  intros Hz. destruct z as [|p|p]; [done| |lia].
  unfold pretty, pretty_Z, pretty, pretty_positive, pretty, pretty_N.
  case_decide; [done|]. by apply pretty_N_go_dashless.
Qed.

Lemma split_at_dash (a1 a2 t1 t2 : string) :
  has_dash a1 = false → has_dash a2 = false →
  a1 +:+ String "-"%char t1 = a2 +:+ String "-"%char t2 →
  a1 = a2 ∧ t1 = t2.
Proof.
  revert a2. induction a1 as [|c a1 IH]; intros [|d a2]; simpl.
  - by intros _ _ [= ->].
  - intros _ [Hd _]%orb_false_elim [= <- _]. by rewrite Ascii.eqb_refl in Hd.
  - intros [Hc _]%orb_false_elim _ [= -> _]. by rewrite Ascii.eqb_refl in Hc.
  - intros [_ H1]%orb_false_elim [_ H2]%orb_false_elim [= -> Heq].
    destruct (IH _ H1 H2 Heq) as [-> ->]. done.
Qed.

Lemma order_suffix_nonneg x : (0 <= random x)%Q → 0 ≤ order_suffix x.
Proof.
  intros H0. unfold order_suffix.
  change 0 with (Qfloor (inject_Z 0)). apply Qfloor_resp_le.
  apply round_double_nonneg. apply Qmult_le_0_compat; [done|]. by compute.
Qed.

(** X13. The random part of an order number is a number from 0 to
    999. [Math.random()] returns a double that is at least zero and
    below one; a thousand times it, rounded to a double, is still below
    a thousand, and the random part is the integer part of that. *)
Theorem order_suffix_range x :
  (0 <= random x)%Q → (random x <= below_one)%Q →
  0 ≤ order_suffix x ≤ 999.
Proof.
  intros H0 H1. split; [by apply order_suffix_nonneg|].
  unfold order_suffix. apply round_double_below.
  unfold Qle in H1. unfold below_one in H1. cbn [Qnum Qden] in H1.
  rewrite Z2Pos.id in H1 by done.
  unfold Qmult, inject_Z. cbn [Qnum Qden]. rewrite Pos.mul_1_r. lia.
Qed.

(** X14. Two order numbers are equal exactly when they were drawn in
    the same millisecond with the same random part: the random part,
    the integer part of a thousand times the random draw, is all that
    tells apart the orders of one millisecond. *)
Theorem order_numbers_equal_iff x y :
  0 ≤ now x ≤ max_safe → 0 ≤ now y ≤ max_safe →
  (0 <= random x)%Q → (0 <= random y)%Q →
  order_number_of x = order_number_of y
  ↔ now x = now y ∧ order_suffix x = order_suffix y.
Proof.
  intros [Hx _] [Hy _] Hx0 Hy0.
  pose proof (order_suffix_nonneg x Hx0) as Hsx.
  pose proof (order_suffix_nonneg y Hy0) as Hsy.
  split.
  - unfold order_number_of.
    intros Heq. cbn [String.append] in Heq.
    injection Heq as Heq.
    apply split_at_dash in Heq as [Hn Hs]; [|by apply pretty_dashless..].
    split; by apply (inj pretty).
  - unfold order_number_of. by intros [-> ->].
Qed.

End Properties.

(** * Properties of the settings routes *)

Section SettingsProperties.

Implicit Types (m : gmap string Setting).

(** X15. Writing a setting and reading it back gives the value
    written. The description is the one sent, or, when none (or an
    empty one) is sent, the one the setting had before; no other
    setting changes. *)
Theorem put_setting_reads_back (user reader : SessionUser) key v d m :
  get_setting (Some reader) key (put_setting (Some user) key (Some v) d m).2
  = Sent (key,
          mkSetting v
            (match or_null d with
             | Some x => Some x
             | None => m !! key ≫= s_description
             end))
  ∧ ∀ k, k ≠ key →
      (put_setting (Some user) key (Some v) d m).2 !! k = m !! k.
Proof.
  unfold put_setting, get_setting, requireAuth_write, requireAuth_read.
  destruct (m !! key) as [old|] eqn:Hold; simpl.
  - rewrite lookup_insert_eq. split; [done|].
    intros k Hk. by rewrite lookup_insert_ne.
  - rewrite lookup_insert_eq. split; [by destruct (or_null d)|].
    intros k Hk. by rewrite lookup_insert_ne.
Qed.

Lemma put_setting_keeps session key v d m k :
  is_Some (m !! k) → is_Some ((put_setting session key v d m).2 !! k).
Proof.
  intros Hk. unfold put_setting, requireAuth_write.
  destruct session as [user|]; [|done].
  destruct v as [v|]; [|done].
  destruct (m !! key) as [old|] eqn:Hold; simpl.
  - rewrite lookup_insert. case_decide; [by eexists|done].
  - rewrite lookup_insert. case_decide; [by eexists|done].
Qed.

(** X16. There is no way to remove a setting: after any sequence of
    [PUT /api/settings/:key] requests, accepted or not, every setting
    that existed before still exists. *)
Theorem settings_never_disappear (puts : list SettingPut) m k :
  is_Some (m !! k) → is_Some (run_puts puts m !! k).
Proof.
  revert m. induction puts as [|rq puts IH]; intros m Hk; [done|].
  simpl. apply IH. by apply put_setting_keeps.
Qed.

Lemma insert_settings_keep (l : list (string * string * string)) m k st :
  m !! k = Some st →
  fold_left (λ m row, insertSetting row.1.1 row.1.2 row.2 m) l m !! k
  = Some st.
Proof.
  revert m. induction l as [|row l IH]; intros m Hk; [done|].
  simpl. apply IH. unfold insertSetting.
  destruct (m !! row.1.1) eqn:Hrow; [done|].
  rewrite lookup_insert_ne; [done|]. intros <-. congruence.
Qed.

Lemma insert_settings_add (l : list (string * string * string)) m k v d :
  NoDup (l.*1.*1) →
  (k, v, d) ∈ l →
  m !! k = None →
  fold_left (λ m row, insertSetting row.1.1 row.1.2 row.2 m) l m !! k
  = Some (mkSetting v (Some d)).
Proof.
  revert m. induction l as [|row l IH]; intros m Hnd Hin Hk.
  - by apply elem_of_nil in Hin.
  - rewrite !fmap_cons in Hnd. apply NoDup_cons in Hnd as [Hfresh Hnd].
    apply elem_of_cons in Hin as [<-|Hin]; simpl.
    + apply insert_settings_keep. unfold insertSetting. simpl.
      rewrite Hk. by rewrite lookup_insert_eq.
    + apply IH; [done..|]. unfold insertSetting.
      destruct (m !! row.1.1) eqn:Hrow; [done|].
      rewrite lookup_insert_ne; [done|]. intros Heq. apply Hfresh.
      rewrite Heq. apply list_elem_of_fmap. exists (k, v).
      split; [done|]. apply list_elem_of_fmap. by exists (k, v, d).
Qed.

Lemma insert_settings_present (l : list (string * string * string)) m :
  Forall (λ row, is_Some (m !! row.1.1)) l →
  fold_left (λ m row, insertSetting row.1.1 row.1.2 row.2 m) l m = m.
Proof.
  induction 1 as [|row l [st Hrow] _ IH]; [done|].
  simpl. unfold insertSetting at 2. by rewrite Hrow.
Qed.

Lemma insert_settings_covers (l : list (string * string * string)) m :
  Forall (λ row,
      is_Some (fold_left (λ m row, insertSetting row.1.1 row.1.2 row.2 m)
                 l m !! row.1.1)) l.
Proof.
  revert m. induction l as [|row l IH]; intros m; [done|].
  constructor; [|apply IH]. simpl.
  assert (is_Some (insertSetting row.1.1 row.1.2 row.2 m !! row.1.1))
    as [st Hst].
  { unfold insertSetting. destruct (m !! row.1.1) eqn:Hrow; [by eexists|].
    rewrite lookup_insert_eq. by eexists. }
  rewrite (insert_settings_keep _ _ _ _ Hst). by eexists.
Qed.

(** X17. Starting the server never overwrites a setting. Every
    setting already in the table keeps its value and description, each
    of the nine defaults that is missing is added with its default
    value, and starting the server again changes nothing. *)
Theorem init_settings_keeps_existing m :
  (∀ k st, m !! k = Some st → init_settings m !! k = Some st)
  ∧ (∀ k v d, (k, v, d) ∈ default_settings → m !! k = None →
       init_settings m !! k = Some (mkSetting v (Some d)))
  ∧ init_settings (init_settings m) = init_settings m.
Proof.
  split; [|split].
  - intros k st. apply insert_settings_keep.
  - intros k v d. apply insert_settings_add.
    apply (bool_decide_unpack (NoDup (default_settings.*1.*1))).
    by vm_compute.
  - apply insert_settings_present. apply insert_settings_covers.
Qed.

End SettingsProperties.

(** * Properties of the account routes *)

Section AccountProperties.
Context {R : Type} `{!Real R}.
Variable bc : Bcrypt.

Implicit Types (site : Site R) (session : option SessionUser).
Implicit Types (us : gmap Z Account).

Lemma by_username_Some us name id a :
  by_username us name = Some (id, a) →
  us !! id = Some a ∧ a_username a = name.
Proof.
  unfold by_username. intros Hhead.
  apply head_Some_elem_of in Hhead.
  apply list_elem_of_filter in Hhead as [Hname Hin].
  by apply elem_of_map_to_list in Hin.
Qed.

Lemma by_username_None us name :
  by_username us name = None ↔
  ∀ id a, us !! id = Some a → a_username a ≠ name.
Proof.
  unfold by_username. rewrite head_None. split.
  - intros Hnil id a Ha Hname.
    assert (Hin : (id, a) ∈ filter (λ kv : Z * Account,
                                     a_username kv.2 = name)
                                  (map_to_list us)).
    { apply list_elem_of_filter. split; [done|].
      by apply elem_of_map_to_list. }
    rewrite Hnil in Hin. by apply elem_of_nil in Hin.
  - intros Hnone.
    destruct (filter _ _) as [|[id a] l] eqn:Hf; [done|].
    assert (Hin : (id, a) ∈ filter (λ kv : Z * Account,
                                     a_username kv.2 = name)
                                  (map_to_list us))
      by (rewrite Hf; left).
    apply list_elem_of_filter in Hin as [Hname Hin].
    apply elem_of_map_to_list in Hin. by edestruct Hnone.
Qed.

Lemma by_username_found us id a :
  usernames_unique us →
  us !! id = Some a →
  by_username us (a_username a) = Some (id, a).
Proof.
  intros Huniq Ha.
  destruct (by_username us (a_username a)) as [[j b]|] eqn:Hby.
  - apply by_username_Some in Hby as [Hb Hname].
    assert (j = id) as -> by (by eapply Huniq).
    congruence.
  - rewrite by_username_None in Hby. by edestruct Hby.
Qed.

(** X18. A registration that is accepted creates a customer: the new
    account has role ['user'], never ['admin'], the session is signed
    in as that account, the password given had at least six
    characters, and no other account and no order table changes. *)
Theorem register_creates_customer salt body session site su session' site' :
  accounts_wf site →
  register bc salt body session site = (Sent su, session', site') →
  session' = Some su
  ∧ su_role su = "user"
  ∧ (6 ≤ String.length (default "" (c_password body)))%nat
  ∧ (∃ a, users site' !! su_id su = Some a
        ∧ a_role a = "user"
        ∧ a_username a = su_username su
        ∧ c_username body = Some (su_username su))
  ∧ users site !! su_id su = None
  ∧ (∀ id, id ≠ su_id su → users site' !! id = users site !! id)
  ∧ shop site' = shop site.
Proof.
  intros [_ Hids]. unfold register.
  destruct (falsy (c_username body)) eqn:Hname; [done|].
  destruct (falsy (c_password body)) eqn:Hpw; [done|]. simpl.
  destruct (Nat.ltb_spec (String.length (default "" (c_password body))) 6);
    [done|].
  destruct (by_username _ _) as [found|] eqn:Hby; [done|].
  intros [= <- <- <-]. simpl.
  split; [done|]. split; [done|]. split; [done|].
  split.
  { eexists. rewrite lookup_insert_eq. split; [done|]. split; [done|].
    split; [done|]. by destruct (c_username body). }
  split.
  { destruct (users site !! (users_seq site + 1)) as [a|] eqn:Ha; [|done].
    apply Hids in Ha. lia. }
  split; [|done].
  intros id Hid. by rewrite lookup_insert_ne.
Qed.

(** X19. A registration without a name or password, with a password
    of fewer than six characters, or with a name that is in use is
    answered 400 and changes neither the accounts nor the session. *)
Theorem register_rejects salt body session site :
  falsy (c_username body) = true
  ∨ falsy (c_password body) = true
  ∨ (String.length (default "" (c_password body)) < 6)%nat
  ∨ (∃ id a, users site !! id = Some a
           ∧ c_username body = Some (a_username a)) →
  ∃ msg, register bc salt body session site
         = (Failed 400 msg, session, site).
Proof.
  intros Hbad. unfold register.
  destruct (falsy (c_username body)) eqn:Hname; [by eexists|].
  destruct (falsy (c_password body)) eqn:Hpw; [by eexists|]. simpl.
  destruct (Nat.ltb_spec (String.length (default "" (c_password body))) 6);
    [by eexists|].
  destruct Hbad as [?|[?|[?|(id & a & Ha & Hbody)]]]; [done|done|lia|].
  destruct (by_username _ _) as [found|] eqn:Hby; [by eexists|].
  rewrite by_username_None in Hby. rewrite Hbody in Hby. simpl in Hby.
  by edestruct Hby.
Qed.

(** X20. Whoever registered can sign in. With a [bcryptjs] whose
    [compare] accepts the password it hashed, signing in with the name
    and password of an accepted registration, for the customer login
    page or without naming a role, gives the same session user as the
    registration did. *)
Theorem register_then_login salt body session site su session' site'
    (role : option string) session2 :
  accounts_wf site →
  compare bc (default "" (c_password body))
    (hashSync bc (default "" (c_password body)) salt) = Some true →
  register bc salt body session site = (Sent su, session', site') →
  role = None ∨ role = Some "user" →
  login bc (mkCredentials (c_username body) (c_password body) None role)
    session2 site'
  = (Sent su, Some su).
Proof.
  intros [Huniq Hids] Hcmp. unfold register.
  destruct (falsy (c_username body)) eqn:Hname; [done|].
  destruct (falsy (c_password body)) eqn:Hpw; [done|]. simpl.
  destruct (Nat.ltb_spec (String.length (default "" (c_password body))) 6);
    [done|].
  destruct (by_username _ _) as [found|] eqn:Hby; [done|].
  intros [= <- <- <-] Hrole.
  unfold login. simpl. rewrite Hname, Hpw. simpl.
  set (acct := mkAccount _ _ _ _ _).
  assert (Hfound : by_username (<[users_seq site + 1 := acct]> (users site))
                     (default "" (c_username body))
                   = Some (users_seq site + 1, acct)).
  { apply (by_username_found _ _ acct); [|by rewrite lookup_insert_eq].
    rewrite by_username_None in Hby.
    intros i j ai aj. rewrite !lookup_insert.
    repeat case_decide; subst; try done.
    - intros [= <-] Hj Heq. simpl in Heq. by edestruct Hby.
    - intros Hi [= <-] Heq. simpl in Heq. by edestruct Hby.
    - apply Huniq. }
  rewrite Hfound. subst acct.
  destruct Hrole as [-> | ->]; simpl; by rewrite Hcmp.
Qed.

(** X21. The login page is checked before the password. For an
    existing account, a request that names a role other than the
    account's is answered 403 with a message telling which login page
    the account belongs to, whatever password is sent, and the session
    stays as it was. *)
Theorem login_role_checked_first body session site id a r :
  usernames_unique (users site) →
  users site !! id = Some a →
  c_username body = Some (a_username a) →
  falsy (c_username body) = false →
  falsy (c_password body) = false →
  c_role body = Some r → r ≠ "" → r ≠ role_of a →
  login bc body session site
  = (Failed 403
       ("Access denied. This account is for " +:+ login_page (role_of a)
        +:+ " login. Please use the " +:+ login_page (role_of a)
        +:+ " login page."), session).
Proof.
  intros Huniq Ha Hbody Hname Hpw Hrole Hr Hne.
  unfold login. rewrite Hname, Hpw, Hbody. simpl.
  rewrite (by_username_found _ _ _ Huniq Ha). simpl.
  rewrite Hrole. simpl.
  apply String.eqb_neq in Hr. rewrite Hr. simpl.
  assert (String.eqb (role_of a) r = false) as ->
    by (apply String.eqb_neq; congruence).
  done.
Qed.

(** X22. An unknown name and a wrong password get the same answer:
    status 401 with ["Invalid username or password"], and the session
    stays as it was. *)
Theorem login_failures_look_alike body session site :
  falsy (c_username body) = false →
  falsy (c_password body) = false →
  falsy (c_role body) = true →
  (∀ id a, users site !! id = Some a →
     c_username body = Some (a_username a) →
     compare bc (default "" (c_password body)) (a_password a)
     = Some false) →
  login bc body session site
  = (Failed 401 "Invalid username or password", session).
Proof.
  intros Hname Hpw Hrole Hwrong. unfold login. rewrite Hname, Hpw. simpl.
  destruct (by_username _ _) as [[id a]|] eqn:Hby; [|done].
  apply by_username_Some in Hby as [Ha Huser].
  rewrite Hrole. simpl.
  rewrite (Hwrong id a Ha); [done|].
  rewrite Huser. by destruct (c_username body).
Qed.

(** *** Deleting a user *)

Lemma filter_none {A} (P : A → Prop) `{!∀ x, Decision (P x)} (l : list A) :
  (∀ x, ¬ P x) → filter P l = [].
Proof.
  intros Hno. induction l as [|x l IH]; [done|].
  by rewrite filter_cons_False.
Qed.

Lemma delete_user_run accepts_html (admin : SessionUser) uid a site :
  su_role admin = "admin" →
  uid ≠ su_id admin →
  users site !! uid = Some a →
  a_role a ≠ "admin" →
  delete_user accepts_html (Some uid) (Some admin) site
  = (Sent ("User " +:+ String (ascii_of_nat 34) (a_username a)
           +:+ String (ascii_of_nat 34) " has been deleted successfully.",
           Z.of_nat (size (orders_of (shop site) uid))),
     without_user uid site).
Proof.
  intros Hadmin Hne Ha Hrole.
  unfold delete_user, requireAuth_write, requireAdmin.
  rewrite Hadmin. simpl.
  rewrite bool_decide_eq_false_2 by congruence.
  rewrite Ha. simpl.
  apply String.eqb_neq in Hrole. by rewrite Hrole.
Qed.

Lemma delete_user_cases accepts_html param session site :
  (delete_user accepts_html param session site).2 = site
  ∧ (∀ p, (delete_user accepts_html param session site).1 ≠ Sent p)
  ∨ ∃ admin uid a,
      session = Some admin ∧ su_role admin = "admin"
      ∧ param = Some uid ∧ uid ≠ su_id admin
      ∧ users site !! uid = Some a ∧ a_role a ≠ "admin".
Proof.
  unfold delete_user, requireAuth_write, requireAdmin.
  destruct session as [admin|]; [|by left].
  destruct (String.eqb (su_role admin) "admin") eqn:Hadmin;
    [|left; by destruct accepts_html].
  apply String.eqb_eq in Hadmin.
  case_bool_decide as Hself; [by left|].
  destruct param as [uid|]; [|by left]. simpl.
  destruct (users site !! uid) as [a|] eqn:Ha; [|by left]. simpl.
  destruct (String.eqb (a_role a) "admin") eqn:Hrole; [by left|].
  apply String.eqb_neq in Hrole.
  right. exists admin, uid, a. repeat split; try done. congruence.
Qed.

(** X23. A user is deleted exactly when the session belongs to an
    administrator, the id parses to a number other than the
    administrator's own, and the account with that id exists and is
    not itself an administrator. Every other request leaves users,
    orders and line items as they were. *)
Theorem delete_user_accepted_iff accepts_html param session site :
  ((∃ p, (delete_user accepts_html param session site).1 = Sent p)
   ↔ ∃ admin uid a,
       session = Some admin ∧ su_role admin = "admin"
       ∧ param = Some uid ∧ uid ≠ su_id admin
       ∧ users site !! uid = Some a ∧ a_role a ≠ "admin")
  ∧ ((∀ p, (delete_user accepts_html param session site).1 ≠ Sent p) →
     (delete_user accepts_html param session site).2 = site).
Proof.
  destruct (delete_user_cases accepts_html param session site)
    as [[Hsame Hno]|(admin & uid & a & -> & Hadmin & -> & Hne & Ha & Hrole)].
  - split; [|done]. split.
    + intros [p Hp]. by edestruct Hno.
    + intros (admin & uid & a & -> & Hadmin & -> & Hne & Ha & Hrole).
      rewrite (delete_user_run _ _ _ a) in Hno by done.
      by edestruct Hno.
  - rewrite (delete_user_run _ _ _ a) by done. simpl. split.
    + split; [|by eexists]. intros _. by exists admin, uid, a.
    + intros Hno. by edestruct Hno.
Qed.

(** X24. Deleting a user removes the account together with all of
    that user's orders and their line items, and reports how many
    orders went; every other account, every other order and its line
    items stay as they were, and the products are not touched: stock
    held by the deleted orders is not put back. *)
Theorem delete_user_effect accepts_html (admin : SessionUser) uid a site :
  su_role admin = "admin" →
  uid ≠ su_id admin →
  users site !! uid = Some a →
  a_role a ≠ "admin" →
  ∃ msg site',
    delete_user accepts_html (Some uid) (Some admin) site
    = (Sent (msg, Z.of_nat (size (orders_of (shop site) uid))), site')
    ∧ users site' !! uid = None
    ∧ (∀ id, id ≠ uid → users site' !! id = users site !! id)
    ∧ (∀ id o, orders (shop site') !! id = Some o
             ↔ orders (shop site) !! id = Some o ∧ o_user_id o ≠ uid)
    ∧ (∀ id o, orders (shop site) !! id = Some o →
         items_of (shop site') id
         = if bool_decide (o_user_id o = uid) then []
           else items_of (shop site) id)
    ∧ products (shop site') = products (shop site).
Proof.
  intros Hadmin Hne Ha Hrole.
  eexists _, _. split; [by apply delete_user_run|]. simpl.
  split; [by rewrite lookup_delete_eq|].
  split; [intros id Hid; by rewrite lookup_delete_ne|].
  split; [intros id o; by rewrite map_lookup_filter_Some|].
  split; [|done].
  intros id o Ho. unfold items_of. simpl.
  rewrite list_filter_filter. case_bool_decide as Howner.
  - apply filter_none. intros it [Hid Hnone].
    rewrite Hid in Hnone. unfold orders_of in Hnone.
    apply map_lookup_filter_None in Hnone as [Hnone|Hnone]; [congruence|].
    by apply (Hnone o).
  - apply list_filter_iff. intros it. split; [by intros [? _]|].
    intros Hid. split; [done|]. rewrite Hid. unfold orders_of.
    apply map_lookup_filter_None. right. intros o' Ho'.
    assert (o' = o) as -> by congruence. done.
Qed.

(** *** What every sequence of requests preserves *)

Lemma register_cases salt body session site :
  (register bc salt body session site).2 = site
  ∨ ∃ name a,
      by_username (users site) name = None
      ∧ a_username a = name ∧ a_role a = "user"
      ∧ (register bc salt body session site).2
        = mkSite (shop site) (<[users_seq site + 1 := a]> (users site))
            (users_seq site + 1).
Proof.
  unfold register.
  destruct (falsy (c_username body) || falsy (c_password body)); [by left|].
  destruct (_ <? _)%nat; [by left|].
  destruct (by_username _ _) as [found|] eqn:Hby; [by left|].
  right. eexists _, _. split; [exact Hby|]. by repeat split.
Qed.

Lemma update_profile_cases name mail session site :
  (update_profile name mail session site).2 = site
  ∨ ∃ me username,
      (∀ j b, users site !! j = Some b → a_username b = username →
         j = su_id me)
      ∧ (update_profile name mail session site).2
        = mkSite (shop site)
            (alter (λ a, mkAccount username (a_password a) mail (a_role a)
                           (a_profile_picture a)) (su_id me) (users site))
            (users_seq site).
Proof.
  unfold update_profile.
  destruct session as [me|]; [|by left].
  destruct (falsy name || falsy mail); [by left|].
  destruct (filter _ _) as [|kv l] eqn:Hf; [|by left].
  right. exists me, (default "" name). split; [|done].
  intros j b Hb Hname.
  destruct (decide (j = su_id me)) as [|Hne]; [done|].
  assert (Hin : (j, b) ∈ filter (λ kv : Z * Account,
                    a_username kv.2 = default "" name ∧ kv.1 ≠ su_id me)
                  (map_to_list (users site))).
  { apply list_elem_of_filter. split; [done|].
    by apply elem_of_map_to_list. }
  rewrite Hf in Hin. by apply elem_of_nil in Hin.
Qed.

Lemma register_wf salt body session site :
  accounts_wf site → accounts_wf (register bc salt body session site).2.
Proof.
  intros [Huniq Hids].
  destruct (register_cases salt body session site)
    as [->|(name & a & Hby & Hname & _ & ->)]; [done|].
  rewrite by_username_None in Hby. split; simpl.
  - intros i j ai aj. rewrite !lookup_insert.
    repeat case_decide; subst; try done.
    + intros [= <-] Hj Heq. by edestruct Hby.
    + intros Hi [= <-] Heq. by edestruct Hby.
    + apply Huniq.
  - intros id b. rewrite lookup_insert. case_decide; [lia|].
    intros Hb. apply Hids in Hb. lia.
Qed.

Lemma update_profile_wf name mail session site :
  accounts_wf site → accounts_wf (update_profile name mail session site).2.
Proof.
  intros [Huniq Hids].
  destruct (update_profile_cases name mail session site)
    as [->|(me & username & Hfree & ->)]; [done|].
  split; simpl.
  - intros i j ai aj. rewrite !lookup_alter.
    repeat case_decide; subst; try done.
    + destruct (users site !! su_id me) as [a|]; [|done].
      intros [= <-] Hj Heq. simpl in Heq. symmetry. by eapply Hfree.
    + destruct (users site !! su_id me) as [a|]; [|done].
      intros Hi [= <-] Heq. simpl in Heq. by eapply Hfree.
    + apply Huniq.
  - intros id b. rewrite lookup_alter. case_decide; [|apply Hids].
    subst. destruct (users site !! su_id me) as [a|] eqn:Ha; [|done].
    intros _. by eapply Hids.
Qed.

Lemma delete_user_wf accepts_html param session site :
  accounts_wf site →
  accounts_wf (delete_user accepts_html param session site).2.
Proof.
  intros [Huniq Hids].
  destruct (delete_user_cases accepts_html param session site)
    as [[-> _]|(admin & uid & a & -> & Hadmin & -> & Hne & Ha & Hrole)];
    [done|].
  rewrite (delete_user_run _ _ _ a) by done. split; simpl.
  - intros i j ai aj Hi%lookup_delete_Some Hj%lookup_delete_Some.
    destruct Hi, Hj. by eapply Huniq.
  - intros id b [_ Hb]%lookup_delete_Some. by eapply Hids.
Qed.

Lemma serve_site_wf rq site :
  accounts_wf site → accounts_wf (serve_site bc rq site).
Proof.
  intros Hwf. destruct rq; simpl; [|done| | |done].
  - by apply register_wf.
  - by apply update_profile_wf.
  - by apply delete_user_wf.
Qed.

(** X25. Whatever requests arrive at the account and order routes,
    no two accounts ever share a user name and no account has an id
    beyond the id counter. *)
Theorem usernames_stay_unique (rqs : list SiteRequest) site :
  accounts_wf site → accounts_wf (serve_site_all bc rqs site).
Proof.
  revert site. induction rqs as [|rq rqs IH]; intros site Hwf; [done|].
  simpl. by apply IH, serve_site_wf.
Qed.

Lemma serve_site_admin rq site id :
  accounts_wf site →
  (∃ a, users site !! id = Some a ∧ a_role a = "admin") →
  ∃ a, users (serve_site bc rq site) !! id = Some a ∧ a_role a = "admin".
Proof.
  intros [Huniq Hids] (a & Ha & Hrole).
  destruct rq as [salt body session|body session|name mail session
                 |accepts_html param session|rq readings drawn]; simpl;
    [| by eauto | | | by eauto].
  - destruct (register_cases salt body session site)
      as [->|(n & b & _ & _ & _ & ->)]; [by eauto|].
    simpl. exists a. rewrite lookup_insert_ne; [done|].
    apply Hids in Ha. lia.
  - destruct (update_profile_cases name mail session site)
      as [->|(me & username & _ & ->)]; [by eauto|].
    simpl. rewrite lookup_alter. case_decide; [|by eauto].
    subst. rewrite Ha. simpl. by eexists.
  - destruct (delete_user_cases accepts_html param session site)
      as [[-> _]|(admin & uid & b & -> & Hadmin & -> & Hne & Hb & Hnot)];
      [by eauto|].
    rewrite (delete_user_run _ _ _ b) by done. simpl.
    exists a. rewrite lookup_delete_ne; [done|].
    intros <-. congruence.
Qed.

(** X26. An administrator account cannot be lost through the routes:
    whatever requests arrive, in whatever sessions, an account that has
    role ['admin'] is still there afterwards and still has that
    role. *)
Theorem admins_persist (rqs : list SiteRequest) site id a :
  accounts_wf site →
  users site !! id = Some a →
  a_role a = "admin" →
  ∃ a', users (serve_site_all bc rqs site) !! id = Some a'
      ∧ a_role a' = "admin".
Proof.
  intros Hwf Ha Hrole.
  assert (Hadmin : ∃ a, users site !! id = Some a ∧ a_role a = "admin")
    by eauto.
  clear a Ha Hrole. revert site Hwf Hadmin.
  induction rqs as [|rq rqs IH]; intros site Hwf Hadmin; [done|].
  simpl. apply IH; [by apply serve_site_wf|by apply serve_site_admin].
Qed.

Lemma serve_linked (rq : Request) (w : World R) :
  items_linked (db w) → items_linked (db (serve rq w).2).
Proof.
  intros Hl. destruct rq as [session req|session id st|session id]; simpl.
  - destruct (place_order_outcome session req w)
      as [->|(user & total & vs & _ & _ & ->)]; [done|].
    unfold items_linked. simpl. apply Forall_app. split.
    + eapply Forall_impl; [exact Hl|]. simpl. intros it [o Ho].
      rewrite lookup_insert. case_decide; by eexists.
    + eapply Forall_impl; [apply item_rows_ids|]. simpl.
      intros it [_ ->]. rewrite lookup_insert_eq. by eexists.
  - destruct session as [user|]; [|done].
    destruct (decide (st ∈ validStatuses)) as [Hst|Hst];
      [|by rewrite update_order_status_invalid].
    destruct (orders (db w) !! id) as [o|] eqn:Ho;
      [|by rewrite update_order_status_missing].
    rewrite (update_order_status_found user id st o) by done.
    unfold items_linked. simpl.
    eapply Forall_impl; [exact Hl|]. simpl. intros it [o' Ho'].
    rewrite lookup_alter. case_decide; [|by eexists].
    subst. rewrite Ho'. by eexists.
  - by rewrite get_order_world.
Qed.

Lemma serve_site_linked rq site :
  items_linked (shop site) → items_linked (shop (serve_site bc rq site)).
Proof.
  intros Hl.
  destruct rq as [salt body session|body session|name mail session
                 |accepts_html param session|rq readings drawn]; simpl;
    [| done | | | by apply (serve_linked rq (mkWorld _ _ _ _))].
  - by destruct (register_cases salt body session site)
      as [->|(n & b & _ & _ & _ & ->)].
  - by destruct (update_profile_cases name mail session site)
      as [->|(me & username & _ & ->)].
  - destruct (delete_user_cases accepts_html param session site)
      as [[-> _]|(admin & uid & b & -> & Hadmin & -> & Hne & Hb & Hnot)];
      [done|].
    rewrite (delete_user_run _ _ _ b) by done.
    unfold items_linked in *. simpl.
    rewrite Forall_forall in Hl. apply Forall_forall.
    intros it [Hkeep Hin]%list_elem_of_filter.
    destruct (Hl it Hin) as [o Ho]. exists o.
    apply map_lookup_filter_Some. split; [done|]. simpl.
    intros Howner. unfold orders_of in Hkeep.
    apply map_lookup_filter_None in Hkeep as [Hkeep|Hkeep]; [congruence|].
    by apply (Hkeep o).
Qed.

(** X27. No line item is ever left without its order. Whatever
    requests arrive at the order routes and the account routes,
    including orders that fail midway and the deletion of users with
    orders, every line item in the store belongs to an order that is in
    the store. *)
Theorem line_items_stay_linked (rqs : list SiteRequest) site :
  items_linked (shop site) →
  items_linked (shop (serve_site_all bc rqs site)).
Proof.
  revert site. induction rqs as [|rq rqs IH]; intros site Hl; [done|].
  simpl. by apply IH, serve_site_linked.
Qed.

(** *** Passwords and the default administrator *)

(** X28. After the server has started there is an account named
    ['admin'] with role ['admin']. An administrator of that name who
    was already there keeps the password, and nothing at all changes;
    an account of that name with another role is promoted and gets the
    default password; otherwise the account is created. No other
    account changes, and names stay unique. *)
Theorem init_admin_ensures_admin salt site :
  accounts_wf site →
  accounts_wf (init_admin bc salt site)
  ∧ (∃ id a, users (init_admin bc salt site) !! id = Some a
           ∧ a_username a = "admin" ∧ a_role a = "admin"
           ∧ (∀ old, users site !! id = Some old →
                a_role old = "admin" → init_admin bc salt site = site)
           ∧ (∀ old, users site !! id = Some old →
                a_role old ≠ "admin" →
                a_password a = hashSync bc "admin123" salt)
           ∧ ∀ id', id' ≠ id →
               users (init_admin bc salt site) !! id' = users site !! id').
Proof.
  intros [Huniq Hids]. unfold init_admin.
  destruct (by_username (users site) "admin") as [[id a]|] eqn:Hby.
  - apply by_username_Some in Hby as [Ha Hname].
    destruct (String.eqb (a_role a) "admin") eqn:Hrole; simpl.
    + apply String.eqb_eq in Hrole. split; [done|].
      exists id, a. repeat split; try done. intros old Hold. congruence.
    + apply String.eqb_neq in Hrole. split.
      * split; simpl.
        -- intros i j ai aj. rewrite !lookup_alter.
           repeat case_decide; subst; try done.
           ++ rewrite Ha. intros [= <-] Hj Heq. simpl in Heq.
              by eapply Huniq.
           ++ rewrite Ha. intros Hi [= <-] Heq. simpl in Heq.
              by eapply Huniq.
           ++ apply Huniq.
        -- intros i b. rewrite lookup_alter. case_decide; [|apply Hids].
           subst. rewrite Ha. intros _. by eapply Hids.
      * eexists id, _. simpl. rewrite lookup_alter_eq, Ha. simpl.
        split; [done|]. split; [done|]. split; [done|].
        split; [intros old [= <-]; congruence|].
        split; [done|].
        intros id' Hne. by rewrite lookup_alter_ne.
  - rewrite by_username_None in Hby. split.
    + split; simpl.
      * intros i j ai aj. rewrite !lookup_insert.
        repeat case_decide; subst; try done.
        -- intros [= <-] Hj Heq. by edestruct Hby.
        -- intros Hi [= <-] Heq. by edestruct Hby.
        -- apply Huniq.
      * intros i b. rewrite lookup_insert. case_decide; [lia|].
        intros Hb. apply Hids in Hb. lia.
    + eexists (users_seq site + 1), _. simpl. rewrite lookup_insert_eq.
      split; [done|]. split; [done|]. split; [done|].
      assert (Hfresh : users site !! (users_seq site + 1) = None).
      { destruct (users site !! (users_seq site + 1)) as [b|] eqn:Hb;
          [|done]. apply Hids in Hb. lia. }
      split; [intros old Hold; congruence|].
      split; [intros old Hold; congruence|].
      intros id' Hne. by rewrite lookup_insert_ne.
Qed.

(** X29. After a password change the new password signs in. With a
    [bcryptjs] whose [compare] accepts the password it hashed, a
    signed-in user who gives the current password and a new one of at
    least six characters gets the answer "Password changed
    successfully"; no other account changes, and signing in with the
    name and the new password then succeeds. *)
Theorem change_password_then_login salt current new (me : SessionUser) a
    hashed session2 site :
  usernames_unique (users site) →
  users site !! su_id me = Some a →
  a_username a ≠ "" →
  current ≠ "" →
  (6 ≤ String.length new)%nat →
  compare bc current (a_password a) = Some true →
  hash bc new salt = Some hashed →
  compare bc new hashed = Some true →
  ∃ site',
    change_password bc salt (Some current) (Some new) (Some me) site
    = (Sent "Password changed successfully", site')
    ∧ (∀ id, id ≠ su_id me → users site' !! id = users site !! id)
    ∧ login bc (mkCredentials (Some (a_username a)) (Some new) None None)
        session2 site'
      = (Sent (mkSessionUser (su_id me) (a_username a) (a_email a)
                 (role_of a)),
         Some (mkSessionUser (su_id me) (a_username a) (a_email a)
                 (role_of a))).
Proof.
  intros Huniq Ha Hname Hcur Hlen Hcmp Hhash Hcmp'.
  apply String.eqb_neq in Hname, Hcur.
  assert (Hnew : String.eqb new "" = false).
  { apply String.eqb_neq. intros ->. simpl in Hlen. lia. }
  unfold change_password. cbn [falsy]. rewrite Hcur, Hnew.
  unfold default. cbn [orb from_option id].
  destruct (Nat.ltb_spec (String.length new) 6); [lia|].
  rewrite Ha, Hcmp, Hhash.
  eexists. split; [reflexivity|]. simpl.
  split; [intros id Hid; by rewrite lookup_alter_ne|].
  set (a' := mkAccount (a_username a) hashed (a_email a) (a_role a)
               (a_profile_picture a)).
  assert (Hfound : by_username
                     (alter (λ a, mkAccount (a_username a) hashed
                                    (a_email a) (a_role a)
                                    (a_profile_picture a))
                        (su_id me) (users site)) (a_username a)
                   = Some (su_id me, a')).
  { apply (by_username_found _ _ a').
    - intros i j ai aj. rewrite !lookup_alter.
      repeat case_decide; subst; try done.
      + rewrite Ha. intros [= <-] Hj Heq. simpl in Heq. by eapply Huniq.
      + rewrite Ha. intros Hi [= <-] Heq. simpl in Heq. by eapply Huniq.
      + apply Huniq.
    - by rewrite lookup_alter_eq, Ha. }
  unfold login. cbn [falsy c_username c_password c_role].
  rewrite Hname, Hnew. unfold default. cbn [orb from_option id].
  cbn [users]. rewrite Hfound. cbv beta iota. cbn [negb andb].
  unfold a', role_of. cbn [a_password a_username a_email a_role].
  by rewrite Hcmp'.
Qed.

End AccountProperties.

(** * Examples *)

Lemma get_order_any_caller_witness :
  orders (db (mkWorld Demo.after_jane Demo.everyone Demo.ticking 1)) !! 1
    = Some Demo.janes_order
  ∧ get_order (Some Demo.omar) 1
      (mkWorld Demo.after_jane Demo.everyone Demo.ticking 1)
    = (json 200 (BOrder Demo.janes_order [Demo.janes_row]),
       mkWorld Demo.after_jane Demo.everyone Demo.ticking 1)
  ∧ get_order (Some Demo.root) 1
      (mkWorld Demo.after_jane Demo.everyone Demo.ticking 1)
    = get_order (Some Demo.omar) 1
        (mkWorld Demo.after_jane Demo.everyone Demo.ticking 1).
Proof.
  split; [reflexivity|].
  apply (get_order_any_caller
           (mkWorld Demo.after_jane Demo.everyone Demo.ticking 1) 1
           Demo.janes_order Demo.omar Demo.root).
  reflexivity.
Defined.




(** Three aspirin and two bandages: the total is 40000 cents. *)
Lemma order_total_reconciles_witness :
  ids_issued (db (Demo.fresh 10 10))
  ∧ status (place_order (Some Demo.jane)
              (Demo.cart_request [Demo.entry 1 3; Demo.entry 2 2])
              (Demo.fresh 10 10)).1 = 200
  ∧ ∃ o its,
      body (place_order (Some Demo.jane)
              (Demo.cart_request [Demo.entry 1 3; Demo.entry 2 2])
              (Demo.fresh 10 10)).1 = BCreated (Some o) its
      ∧ orders (db (Demo.placed 10 10 [Demo.entry 1 3; Demo.entry 2 2]))
          !! o_id o = Some o
      ∧ its = items_of
                (db (Demo.placed 10 10 [Demo.entry 1 3; Demo.entry 2 2]))
                (o_id o)
      ∧ o_total_amount o = sum_subtotals its
      ∧ Forall (λ it, oi_subtotal it = r_mul (oi_price it) (oi_quantity it)
                    ∧ ∃ p, products (db (Demo.fresh 10 10))
                             !! oi_product_id it = Some p
                         ∧ oi_price it = p_price p) its.
Proof.
  assert (Hwf : ids_issued (db (Demo.fresh 10 10))) by apply Forall_nil_2.
  split; [exact Hwf|]. split; [reflexivity|].
  apply (order_total_reconciles (Some Demo.jane)
           (Demo.cart_request [Demo.entry 1 3; Demo.entry 2 2])
           (Demo.fresh 10 10) _ _ Hwf (surjective_pairing _)).
  reflexivity.
Defined.

(** Stock 20, an order for 5 leaves 15, cancelling it gives 20 back. *)
Lemma status_update_inventory_witness :
  stock (db (Demo.fresh 20 10)) 1 = Some 20
  ∧ stock (db (Demo.placed 20 10 [Demo.entry 1 5])) 1 = Some 15
  ∧ ∃ w',
      update_order_status (Some Demo.root) 1 "cancelled"
        (Demo.placed 20 10 [Demo.entry 1 5])
      = (json 200 (BSuccess "Order status updated successfully"), w')
      ∧ stock (db w') 1 = Some 20.
Proof.
  split; [reflexivity|]. split; [reflexivity|].
  destruct (status_update_inventory (Demo.placed 20 10 [Demo.entry 1 5])
              Demo.root 1 (Demo.five_aspirin "pending") "cancelled")
    as (w' & Hrun & _ & Hcancel).
  - reflexivity.
  - unfold validStatuses. set_solver.
  - exists w'. split; [exact Hrun|].
    destruct (Hcancel eq_refl) as (_ & Hround).
    { apply room_for_check, (bool_decide_unpack _). by vm_compute. }
    rewrite (Hround (Demo.fresh 20 10) (Some Demo.jane)
               (Demo.cart_request [Demo.entry 1 5])
               [mkOrderItem 1 1 1 "Aspirin" 5 10000 50000]).
    + reflexivity.
    + apply Forall_nil_2.
    + apply room_for_check, (bool_decide_unpack _). by vm_compute.
    + reflexivity.
    + reflexivity.
Defined.

(** C3 as stated does not hold once a sum leaves the safe integers.
    With 11 aspirin in stock an order for minus 2^53 units is accepted
    and leaves 9007199254741004, the double nearest to
    9007199254741003; cancelling the order adds minus 2^53 back and
    leaves 12, not the 11 there were before the order. *)
Lemma cancel_after_rounding :
  let w := Demo.fresh 11 10 in
  let res := place_order (Some Demo.jane)
               (Demo.cart_request [Demo.entry 1 (-9007199254740992)]) w in
  let back := update_order_status (Some Demo.root) 1 "cancelled" res.2 in
  stock (db w) 1 = Some 11
  ∧ status res.1 = 200
  ∧ stock (db res.2) 1 = Some 9007199254741004
  ∧ back.1 = json 200 (BSuccess "Order status updated successfully")
  ∧ stock (db back.2) 1 = Some 12.
Proof. vm_compute. by repeat split. Qed.

(** C4 as stated does not hold. Jane's order for 5 of 20 units was
    cancelled and the stock is 20 again; cancelling it a second time is
    answered with status 200 and the stock becomes 25. *)
Lemma second_cancel_restocks :
  let w := Demo.cancelled 20 10 [Demo.entry 1 5] in
  let res := update_order_status (Some Demo.root) 1 "cancelled" w in
  o_status <$> orders (db w) !! 1 = Some "cancelled"
  ∧ stock (db w) 1 = Some 20
  ∧ res.1 = json 200 (BSuccess "Order status updated successfully")
  ∧ stock (db res.2) 1 = Some 25.
Proof. vm_compute. by repeat split. Qed.

Lemma recancel_restores_again_witness :
  orders (db (Demo.cancelled 20 10 [Demo.entry 1 5])) !! 1
    = Some (Demo.five_aspirin "cancelled")
  ∧ ∃ w',
      update_order_status (Some Demo.root) 1 "cancelled"
        (Demo.cancelled 20 10 [Demo.entry 1 5])
      = (json 200 (BSuccess "Order status updated successfully"), w')
      ∧ ∀ pid, stock (db w') pid
             = (λ q, q + ordered pid
                           (items_of
                              (db (Demo.cancelled 20 10 [Demo.entry 1 5]))
                              1))
               <$> stock (db (Demo.cancelled 20 10 [Demo.entry 1 5])) pid.
Proof.
  split; [reflexivity|].
  apply (recancel_restores_again (Demo.cancelled 20 10 [Demo.entry 1 5])
           Demo.root 1 (Demo.five_aspirin "cancelled")).
  - reflexivity.
  - reflexivity.
  - apply room_for_check, (bool_decide_unpack _). by vm_compute.
Defined.



Lemma shop_nonneg q1 q2 : 0 ≤ q1 → 0 ≤ q2 → nonneg_stock (Demo.shop q1 q2).
Proof.
  intros H1 H2. unfold nonneg_stock, Demo.shop. simpl.
  apply map_Forall_insert_2; [done|].
  apply map_Forall_insert_2; [done|].
  apply map_Forall_empty.
Qed.

(** C2 as stated does not hold. With 5 units in stock, an order for
    minus 5 units is accepted (stock 10), an order for 10 units is
    accepted (stock 0), and cancelling the first order adds minus 5:
    all three operations succeed and the stock ends at -5. Also, the
    stock check looks at one cart entry at a time, against the stock as
    it was before the order: two entries for 6 units each of a product
    with 10 in stock both pass, and the stock ends at -2. *)
Lemma stock_goes_negative :
  let w := Demo.fresh 5 10 in
  let ops := [PlaceOrder (Some Demo.jane)
                (Demo.cart_request [Demo.entry 1 (-5)]);
              PlaceOrder (Some Demo.omar)
                (Demo.cart_request [Demo.entry 1 10]);
              CancelOrder (Some Demo.root) 1] in
  let twice := [PlaceOrder (Some Demo.jane)
                  (Demo.cart_request [Demo.entry 1 6; Demo.entry 1 6])] in
  (nonneg_stock (db w)
   ∧ status <$> (run_ops ops w).1 = [200; 200; 200]
   ∧ stock (db (run_ops ops w).2) 1 = Some (-5)
   ∧ ¬ nonneg_stock (db (run_ops ops w).2))
  ∧ (nonneg_stock (db (Demo.fresh 10 10))
     ∧ status <$> (run_ops twice (Demo.fresh 10 10)).1 = [200]
     ∧ stock (db (run_ops twice (Demo.fresh 10 10)).2) 1 = Some (-2)
     ∧ ¬ nonneg_stock (db (run_ops twice (Demo.fresh 10 10)).2)).
Proof.
  split.
  - split; [by apply shop_nonneg|].
    split; [reflexivity|].
    split; [reflexivity|].
    intros Hst.
    assert (Hl : products
                   (db (run_ops
                          [PlaceOrder (Some Demo.jane)
                             (Demo.cart_request [Demo.entry 1 (-5)]);
                           PlaceOrder (Some Demo.omar)
                             (Demo.cart_request [Demo.entry 1 10]);
                           CancelOrder (Some Demo.root) 1]
                          (Demo.fresh 5 10)).2) !! 1
                 = Some (Demo.aspirin (-5))) by reflexivity.
    apply Hst in Hl. simpl in Hl. lia.
  - split; [by apply shop_nonneg|].
    split; [reflexivity|].
    split; [reflexivity|].
    intros Hst.
    assert (Hl : products
                   (db (run_ops
                          [PlaceOrder (Some Demo.jane)
                             (Demo.cart_request
                                [Demo.entry 1 6; Demo.entry 1 6])]
                          (Demo.fresh 10 10)).2) !! 1
                 = Some (Demo.aspirin (-2))) by reflexivity.
    apply Hst in Hl. simpl in Hl. lia.
Qed.

(** An order for three aspirin and its cancellation. *)
Lemma plain_orders_keep_stock_witness :
  nonneg_stock (db (Demo.fresh 10 10))
  ∧ nonneg_stock
      (db (run_ops
             (take 2 [PlaceOrder (Some Demo.jane)
                        (Demo.cart_request [Demo.entry 1 3]);
                      CancelOrder (Some Demo.root) 1])
             (Demo.fresh 10 10)).2).
Proof.
  assert (H0 : nonneg_stock (db (Demo.fresh 10 10)))
    by (apply shop_nonneg; lia).
  split; [exact H0|].
  apply (plain_orders_keep_stock
           [PlaceOrder (Some Demo.jane) (Demo.cart_request [Demo.entry 1 3]);
            CancelOrder (Some Demo.root) 1] (Demo.fresh 10 10) H0).
  - apply Forall_nil_2.
  - apply Forall_cons_2; [|apply Forall_cons_2; [exact I|apply Forall_nil_2]].
    intros cart [= <-]. split.
    + apply NoDup_singleton.
    + apply Forall_cons_2; [|apply Forall_nil_2]. simpl. lia.
Defined.

(** C1, at a request the route can receive. Item 1 asks for two
    aspirin, item 2 carries a [null] quantity. The header is inserted,
    item 1 is inserted and its stock deducted, then the insert of item
    2 throws and the route answers 500: the header, the row of item 1
    and the deduction stay in the store. *)
Theorem failed_order_leaves_writes :
  let w := Demo.fresh 10 10 in
  let res := place_order (Some Demo.jane)
               (Demo.cart_request [Demo.entry 1 2; mkCartItem 2 None]) w in
  res.1 = json 500
            (BError "NOT NULL constraint failed: order_items.quantity")
  ∧ orders (db w) = ∅
  ∧ o_order_number <$> orders (db res.2) !! 1 = Some "ORD-1000-500"
  ∧ order_items (db w) = []
  ∧ order_items (db res.2) = [mkOrderItem 1 1 1 "Aspirin" 2 10000 20000]
  ∧ stock (db w) 1 = Some 10
  ∧ stock (db res.2) 1 = Some 8.
Proof. vm_compute. by repeat split. Qed.

(** C5, at a request the route can receive. Item 1 asks for two
    aspirin, item 2 carries a [null] quantity, item 3 asks for three
    more aspirin. All three pass validation, so the header is inserted
    with the total of the three, 50000; item 1 is written with its
    subtotal of 20000; then the insert of item 2 throws and the route
    answers 500. The order stays in the store with a total that is not
    the sum of the subtotals of its line items. *)
Theorem failed_order_total_differs :
  let w := Demo.fresh 10 10 in
  let res := place_order (Some Demo.jane)
               (Demo.cart_request
                  [Demo.entry 1 2; mkCartItem 2 None; Demo.entry 1 3]) w in
  res.1 = json 500
            (BError "NOT NULL constraint failed: order_items.quantity")
  ∧ o_total_amount <$> orders (db res.2) !! 1 = Some 50000
  ∧ items_of (db res.2) 1 = [mkOrderItem 1 1 1 "Aspirin" 2 10000 20000]
  ∧ sum_subtotals (items_of (db res.2) 1) = 20000.
Proof. vm_compute. by repeat split. Qed.



(** * Examples for the further properties *)

Lemma shop_wf q1 q2 : store_wf (Demo.shop q1 q2).
Proof.
  split; [|split; [|split]].
  - intros id o Ho. simpl in Ho. by rewrite lookup_empty in Ho.
  - intros i j oi oj Hi. simpl in Hi. by rewrite lookup_empty in Hi.
  - split; [apply NoDup_nil_2|apply Forall_nil_2].
  - apply Forall_nil_2.
Qed.

(** Three of ten aspirin: seven are left, and the bandages stay. *)
Lemma accepted_order_deducts_cart_witness :
  stock (db (Demo.placed 10 10 [Demo.entry 1 3])) 1 = Some 7
  ∧ ∀ pid, stock (db (Demo.placed 10 10 [Demo.entry 1 3])) pid
         = (λ q, q - requested pid [Demo.entry 1 3])
           <$> stock (db (Demo.fresh 10 10)) pid.
Proof.
  split; [reflexivity|].
  apply (accepted_order_deducts_cart (Some Demo.jane)
           (Demo.cart_request [Demo.entry 1 3]) [Demo.entry 1 3]
           (Demo.fresh 10 10)
           (place_order (Some Demo.jane)
              (Demo.cart_request [Demo.entry 1 3]) (Demo.fresh 10 10)).1
           (Demo.placed 10 10 [Demo.entry 1 3]) eq_refl).
  - apply room_for_check, (bool_decide_unpack _). by vm_compute.
  - apply surjective_pairing.
  - reflexivity.
Defined.

Lemma accepted_order_mirrors_cart_witness :
  ∃ user cart o its,
    Some Demo.jane = Some user
    ∧ items (Demo.cart_request [Demo.entry 1 3; Demo.entry 2 2]) = Some cart
    ∧ body (place_order (Some Demo.jane)
              (Demo.cart_request [Demo.entry 1 3; Demo.entry 2 2])
              (Demo.fresh 10 10)).1 = BCreated (Some o) its
    ∧ o_user_id o = u_id user
    ∧ o_status o = "pending"
    ∧ Forall2 (λ ci it,
                 oi_order_id it = o_id o
                 ∧ oi_product_id it = ci_product_id ci
                 ∧ oi_quantity it = to_number (ci_quantity ci)
                 ∧ ∃ p, products (db (Demo.fresh 10 10)) !! ci_product_id ci
                          = Some p
                      ∧ oi_product_name it = p_name p
                      ∧ oi_price it = p_price p) cart its.
Proof.
  apply (accepted_order_mirrors_cart (Some Demo.jane)
           (Demo.cart_request [Demo.entry 1 3; Demo.entry 2 2])
           (Demo.fresh 10 10) _ _ (Forall_nil_2 _) (surjective_pairing _)).
  reflexivity.
Defined.

Lemma accepted_order_reads_back_witness :
  get_order (Some Demo.omar) 1 (Demo.placed 20 10 [Demo.entry 1 5])
  = (json 200
       (BOrder (Demo.five_aspirin "pending")
          [mkOrderItem 1 1 1 "Aspirin" 5 10000 50000]),
     Demo.placed 20 10 [Demo.entry 1 5]).
Proof.
  apply (accepted_order_reads_back (Some Demo.jane)
           (Demo.cart_request [Demo.entry 1 5]) (Demo.fresh 20 10)
           (Demo.five_aspirin "pending")
           [mkOrderItem 1 1 1 "Aspirin" 5 10000 50000]
           (Demo.placed 20 10 [Demo.entry 1 5]) Demo.omar).
  reflexivity.
Defined.



Lemma routes_keep_schema_witness :
  store_wf
    (db (serve_all
           [Place (Some Demo.jane) (Demo.cart_request [Demo.entry 1 3]);
            SetStatus (Some Demo.root) 1 "shipped";
            Fetch (Some Demo.omar) 1]
           (Demo.fresh 10 10))).
Proof.
  apply (routes_keep_schema
           [Place (Some Demo.jane) (Demo.cart_request [Demo.entry 1 3]);
            SetStatus (Some Demo.root) 1 "shipped";
            Fetch (Some Demo.omar) 1] (Demo.fresh 10 10)).
  apply shop_wf.
Defined.

Lemma earlier_orders_untouched_witness :
  orders
    (db (place_order (Some Demo.omar) (Demo.cart_request [Demo.entry 2 4])
           (Demo.placed 10 10 [Demo.entry 1 3])).2) !! 1
  = Some Demo.janes_order
  ∧ items_of
      (db (place_order (Some Demo.omar) (Demo.cart_request [Demo.entry 2 4])
             (Demo.placed 10 10 [Demo.entry 1 3])).2) 1
    = items_of (db (Demo.placed 10 10 [Demo.entry 1 3])) 1.
Proof.
  apply (earlier_orders_untouched (Some Demo.omar)
           (Demo.cart_request [Demo.entry 2 4])
           (Demo.placed 10 10 [Demo.entry 1 3]) 1 Demo.janes_order).
  - apply place_order_wf, shop_wf.
  - reflexivity.
Defined.

Lemma valid_delivered : "delivered" ∈ validStatuses.
Proof. apply valid_status_spec. reflexivity. Qed.

(** A pending order is set to delivered by a customer who does not own
    it. *)
Lemma status_update_reads_back_witness :
  ∃ w',
    update_order_status (Some Demo.omar) 1 "delivered"
      (mkWorld Demo.after_jane Demo.everyone Demo.ticking 1)
    = (json 200 (BSuccess "Order status updated successfully"), w')
    ∧ get_order (Some Demo.jane) 1 w'
      = (json 200
           (BOrder (set_status "delivered" Demo.janes_order)
              (items_of
                 (db (mkWorld Demo.after_jane Demo.everyone Demo.ticking 1))
                 1)),
         w')
    ∧ (∀ id', id' ≠ 1 →
         orders (db w') !! id'
         = orders
             (db (mkWorld Demo.after_jane Demo.everyone Demo.ticking 1))
           !! id')
    ∧ order_items (db w')
      = order_items
          (db (mkWorld Demo.after_jane Demo.everyone Demo.ticking 1)).
Proof.
  apply (status_update_reads_back
           (mkWorld Demo.after_jane Demo.everyone Demo.ticking 1)
           Demo.omar Demo.jane 1 Demo.janes_order "delivered").
  - reflexivity.
  - apply valid_delivered.
Defined.

Lemma status_update_rejected_witness :
  update_order_status (Some Demo.root) 1 "refunded"
    (mkWorld Demo.after_jane Demo.everyone Demo.ticking 1)
  = (if bool_decide ("refunded" ∈ validStatuses)
     then json 404 (BError "Order not found")
     else json 400 (BError "Invalid order status"),
     mkWorld Demo.after_jane Demo.everyone Demo.ticking 1).
Proof.
  apply (status_update_rejected Demo.root 1 "refunded"
           (mkWorld Demo.after_jane Demo.everyone Demo.ticking 1)).
  left. rewrite <- valid_status_spec. discriminate.
Defined.

(** Three cancellations of an order for three aspirin: each is
    answered 200, and the stock ends at 7 + 3 * 3. *)
Lemma repeated_cancel_adds_up_witness :
  let w := mkWorld Demo.after_jane Demo.everyone Demo.ticking 1 in
  (∀ k, (k < 3)%nat →
     (update_order_status (Some Demo.root) 1 "cancelled"
        (cancel_times k (Some Demo.root) 1 w)).1
     = json 200 (BSuccess "Order status updated successfully"))
  ∧ ∀ pid, stock (db (cancel_times 3 (Some Demo.root) 1 w)) pid
         = (λ q, q + Z.of_nat 3 * ordered pid (items_of (db w) 1))
           <$> stock (db w) pid.
Proof.
  apply (repeated_cancel_adds_up 3 Demo.root 1 Demo.janes_order
           (mkWorld Demo.after_jane Demo.everyone Demo.ticking 1)).
  - reflexivity.
  - apply room_for_check, (bool_decide_unpack _). by vm_compute.
Defined.

(** The largest draw there is gives 999. *)
Lemma order_suffix_range_witness :
  order_suffix (mkSample 1000 below_one) = 999
  ∧ 0 ≤ order_suffix (mkSample 1000 below_one) ≤ 999.
Proof.
  split; [reflexivity|].
  apply (order_suffix_range (mkSample 1000 below_one)); by compute.
Defined.

(** Two draws in the same millisecond, one half and a little more than
    one half: both give the random part 500, and the same number. *)
Lemma order_numbers_equal_iff_witness :
  order_suffix (mkSample 1000 (5001 # 10000)) = 500
  ∧ order_number_of (Demo.ticking 0)
    = order_number_of (mkSample 1000 (5001 # 10000)).
Proof.
  split; [reflexivity|].
  apply (order_numbers_equal_iff (Demo.ticking 0)
           (mkSample 1000 (5001 # 10000))).
  - by vm_compute.
  - by vm_compute.
  - by compute.
  - by compute.
  - split; reflexivity.
Defined.

Lemma settings_never_disappear_witness :
  is_Some
    (run_puts
       [mkSettingPut (Some Demo.root_session) "low_stock_threshold"
          (Some "5") None;
        mkSettingPut None "dark_mode" (Some "true") None]
       (init_settings ∅) !! "low_stock_threshold").
Proof.
  apply (settings_never_disappear
           [mkSettingPut (Some Demo.root_session) "low_stock_threshold"
              (Some "5") None;
            mkSettingPut None "dark_mode" (Some "true") None]
           (init_settings ∅) "low_stock_threshold").
  by eexists.
Defined.

Lemma site_accounts_wf : accounts_wf Demo.site.
Proof.
  split.
  - intros i j ai aj. unfold Demo.site, Demo.accounts. simpl.
    rewrite !lookup_insert, !lookup_empty.
    repeat case_decide; subst; try done; by intros [= <-] [= <-].
  - intros id a. unfold Demo.site, Demo.accounts. simpl.
    rewrite !lookup_insert, lookup_empty.
    repeat case_decide; subst; try done; lia.
Qed.

Lemma register_creates_customer_witness :
  Some (mkSessionUser 9 "omar" None "user")
    = Some (mkSessionUser 9 "omar" None "user")
  ∧ su_role (mkSessionUser 9 "omar" None "user") = "user"
  ∧ (6 ≤ String.length
           (default "" (c_password (Demo.signup "omar" "secret8"))))%nat
  ∧ (∃ a, users
            (register Demo.plain_bcrypt "salt" (Demo.signup "omar" "secret8")
               None Demo.site).2
          !! su_id (mkSessionUser 9 "omar" None "user") = Some a
        ∧ a_role a = "user"
        ∧ a_username a = su_username (mkSessionUser 9 "omar" None "user")
        ∧ c_username (Demo.signup "omar" "secret8")
          = Some (su_username (mkSessionUser 9 "omar" None "user")))
  ∧ users Demo.site !! su_id (mkSessionUser 9 "omar" None "user") = None
  ∧ (∀ id, id ≠ su_id (mkSessionUser 9 "omar" None "user") →
       users
         (register Demo.plain_bcrypt "salt" (Demo.signup "omar" "secret8")
            None Demo.site).2 !! id
       = users Demo.site !! id)
  ∧ shop
      (register Demo.plain_bcrypt "salt" (Demo.signup "omar" "secret8")
         None Demo.site).2
    = shop Demo.site.
Proof.
  apply (register_creates_customer Demo.plain_bcrypt "salt"
           (Demo.signup "omar" "secret8") None Demo.site
           (mkSessionUser 9 "omar" None "user")
           (Some (mkSessionUser 9 "omar" None "user"))).
  - apply site_accounts_wf.
  - reflexivity.
Defined.

(** Five characters are one too few. *)
Lemma register_rejects_witness :
  ∃ msg,
    register Demo.plain_bcrypt "salt" (Demo.signup "omar" "12345")
      None Demo.site
    = (Failed 400 msg, None, Demo.site).
Proof.
  apply (register_rejects Demo.plain_bcrypt "salt"
           (Demo.signup "omar" "12345") None Demo.site).
  right. right. left. simpl. lia.
Defined.

Lemma register_then_login_witness :
  login Demo.plain_bcrypt
    (mkCredentials (Some "omar") (Some "secret8") None (Some "user")) None
    (register Demo.plain_bcrypt "salt" (Demo.signup "omar" "secret8") None
       Demo.site).2
  = (Sent (mkSessionUser 9 "omar" None "user"),
     Some (mkSessionUser 9 "omar" None "user")).
Proof.
  apply (register_then_login Demo.plain_bcrypt "salt"
           (Demo.signup "omar" "secret8") None Demo.site
           (mkSessionUser 9 "omar" None "user")
           (Some (mkSessionUser 9 "omar" None "user"))
           _ (Some "user") None).
  - apply site_accounts_wf.
  - reflexivity.
  - reflexivity.
  - by right.
Defined.

(** Jane is a customer and tries the administrators' login page, with
    a wrong password. *)
Lemma login_role_checked_first_witness :
  login Demo.plain_bcrypt
    (mkCredentials (Some "jane") (Some "guess") None (Some "admin")) None
    Demo.site
  = (Failed 403
       ("Access denied. This account is for customer login. "
        +:+ "Please use the customer login page."), None).
Proof.
  apply (login_role_checked_first Demo.plain_bcrypt
           (mkCredentials (Some "jane") (Some "guess") None (Some "admin"))
           None Demo.site 7
           (mkAccount "jane" "secret7" None "user" None) "admin").
  - apply site_accounts_wf.
  - reflexivity.
  - reflexivity.
  - reflexivity.
  - reflexivity.
  - reflexivity.
  - discriminate.
  - discriminate.
Defined.

(** Jane's name with a wrong password. *)
Lemma login_failures_look_alike_witness :
  login Demo.plain_bcrypt (Demo.signup "jane" "guess7") None Demo.site
  = (Failed 401 "Invalid username or password", None).
Proof.
  apply (login_failures_look_alike Demo.plain_bcrypt
           (Demo.signup "jane" "guess7") None Demo.site).
  - reflexivity.
  - reflexivity.
  - reflexivity.
  - intros id a. unfold Demo.site, Demo.accounts. simpl.
    rewrite !lookup_insert, lookup_empty.
    repeat case_decide; subst; try done; by intros [= <-].
Defined.

(** The administrator deletes Jane, who has one order with one line
    item: both go, the stock of 7 aspirin stays. *)
Lemma delete_user_effect_witness :
  ∃ msg site',
    delete_user false (Some 7) (Some Demo.root_session) Demo.site
    = (Sent (msg, Z.of_nat (size (orders_of (shop Demo.site) 7))), site')
    ∧ users site' !! 7 = None
    ∧ (∀ id, id ≠ 7 → users site' !! id = users Demo.site !! id)
    ∧ (∀ id o, orders (shop site') !! id = Some o
             ↔ orders (shop Demo.site) !! id = Some o ∧ o_user_id o ≠ 7)
    ∧ (∀ id o, orders (shop Demo.site) !! id = Some o →
         items_of (shop site') id
         = if bool_decide (o_user_id o = 7) then []
           else items_of (shop Demo.site) id)
    ∧ products (shop site') = products (shop Demo.site).
Proof.
  apply (delete_user_effect false Demo.root_session 7
           (mkAccount "jane" "secret7" None "user" None) Demo.site).
  - reflexivity.
  - discriminate.
  - reflexivity.
  - discriminate.
Defined.

Lemma usernames_stay_unique_witness :
  accounts_wf
    (serve_site_all Demo.plain_bcrypt
       [Register "salt" (Demo.signup "omar" "secret8") None;
        UpdateProfile (Some "janet") (Some "j@example.com")
          (Some Demo.jane_session);
        DeleteUser false (Some 9) (Some Demo.root_session)]
       Demo.site).
Proof.
  apply (usernames_stay_unique Demo.plain_bcrypt
           [Register "salt" (Demo.signup "omar" "secret8") None;
            UpdateProfile (Some "janet") (Some "j@example.com")
              (Some Demo.jane_session);
            DeleteUser false (Some 9) (Some Demo.root_session)]
           Demo.site).
  apply site_accounts_wf.
Defined.

(** A customer, and a session that falsely claims the administrator
    role under another id, both ask to delete the administrator. *)
Lemma admins_persist_witness :
  ∃ a',
    users
      (serve_site_all Demo.plain_bcrypt
         [DeleteUser false (Some 1) (Some Demo.jane_session);
          DeleteUser false (Some 1)
            (Some (mkSessionUser 7 "jane" None "admin"))]
         Demo.site) !! 1 = Some a'
    ∧ a_role a' = "admin".
Proof.
  apply (admins_persist Demo.plain_bcrypt
           [DeleteUser false (Some 1) (Some Demo.jane_session);
            DeleteUser false (Some 1)
              (Some (mkSessionUser 7 "jane" None "admin"))]
           Demo.site 1
           (mkAccount "admin" "admin123" (Some "admin@pharmacy.com") "admin"
              None)).
  - apply site_accounts_wf.
  - reflexivity.
  - reflexivity.
Defined.

(** An order that fails midway, then the deletion of its owner. *)
Lemma line_items_stay_linked_witness :
  items_linked
    (shop
       (serve_site_all Demo.plain_bcrypt
          [OrderRoute
             (Place (Some Demo.jane)
                (Demo.cart_request [Demo.entry 1 2; mkCartItem 2 None]))
             Demo.ticking 5;
           DeleteUser false (Some 7) (Some Demo.root_session)]
          Demo.site)).
Proof.
  apply (line_items_stay_linked Demo.plain_bcrypt
           [OrderRoute
              (Place (Some Demo.jane)
                 (Demo.cart_request [Demo.entry 1 2; mkCartItem 2 None]))
              Demo.ticking 5;
            DeleteUser false (Some 7) (Some Demo.root_session)]
           Demo.site).
  apply Forall_cons_2; [by eexists|apply Forall_nil_2].
Defined.

(** The demo site already has its administrator: starting the server
    again leaves it alone. *)
Lemma init_admin_ensures_admin_witness :
  accounts_wf (init_admin Demo.plain_bcrypt "salt" Demo.site)
  ∧ (∃ id a,
       users (init_admin Demo.plain_bcrypt "salt" Demo.site) !! id = Some a
       ∧ a_username a = "admin" ∧ a_role a = "admin"
       ∧ (∀ old, users Demo.site !! id = Some old →
            a_role old = "admin" →
            init_admin Demo.plain_bcrypt "salt" Demo.site = Demo.site)
       ∧ (∀ old, users Demo.site !! id = Some old →
            a_role old ≠ "admin" →
            a_password a = hashSync Demo.plain_bcrypt "admin123" "salt")
       ∧ ∀ id', id' ≠ id →
           users (init_admin Demo.plain_bcrypt "salt" Demo.site) !! id'
           = users Demo.site !! id').
Proof.
  apply (init_admin_ensures_admin Demo.plain_bcrypt "salt" Demo.site).
  apply site_accounts_wf.
Defined.

Lemma change_password_then_login_witness :
  ∃ site',
    change_password Demo.plain_bcrypt "salt" (Some "secret7")
      (Some "better7") (Some Demo.jane_session) Demo.site
    = (Sent "Password changed successfully", site')
    ∧ (∀ id, id ≠ su_id Demo.jane_session →
         users site' !! id = users Demo.site !! id)
    ∧ login Demo.plain_bcrypt
        (mkCredentials (Some "jane") (Some "better7") None None) None site'
      = (Sent (mkSessionUser 7 "jane" None "user"),
         Some (mkSessionUser 7 "jane" None "user")).
Proof.
  destruct site_accounts_wf as [Huniq _].
  apply (change_password_then_login Demo.plain_bcrypt "salt" "secret7"
           "better7" Demo.jane_session
           (mkAccount "jane" "secret7" None "user" None) "better7" None
           Demo.site Huniq).
  - reflexivity.
  - discriminate.
  - discriminate.
  - simpl. lia.
  - reflexivity.
  - reflexivity.
  - reflexivity.
Defined.
